(** * CouchDB connector for LoopBack: a shallow embedding of [lib/couchdb.js]

    The connector translates the persistence hooks of the host framework
    ([create], [save], [destroy], [replaceById], [all], [destroyAll],
    [autoupdate], [automigrate]) into calls on a document store.  Every hook
    is embedded as a function on an explicit [world]: the connector object
    ([this]), the JavaScript objects the caller handed in (a small heap, so
    that in-place mutation and aliasing are visible), the document server and
    the list of requests sent to it.

    A call ends fulfilled, rejected, or by throwing before it returned a
    promise; the difference matters, because [catchReturn] and the second
    argument of [then] only see rejections.  Calls that the source starts
    together ([Promise.map]) run here one after the other, in the order of
    the array; they read, or they write distinct documents.

    Left out: the URL handling ([generateCouchDBURL], [getDbUrl],
    [urlResolveFix]) and the empty hooks [updateAttributes] and [count]. *)

From stdpp Require Import gmap strings list fin_maps pretty.
From Stdlib Require Import ZArith Ascii.

Local Open Scope string_scope.
Local Set Warnings "-register-all".

(** ** JavaScript values *)

Inductive value : Type :=
  | VUndef
  | VNull
  | VBool (b : bool)
  | VNum (n : Z)
  | VStr (s : string)
  | VBuf (b : list Byte.byte)
  | VArr (l : list value)
  | VObj (o : gmap string value).

Abbreviation obj := (gmap string value).

(** [v == null] *)
Definition is_nullish (v : value) : bool :=
  match v with
  | VUndef | VNull => true
  | _ => false
  end.

(** [Boolean(v)] *)
Definition truthy (v : value) : bool :=
  match v with
  | VUndef | VNull => false
  | VBool b => b
  | VNum n => negb (n =? 0)%Z
  | VStr s => negb (String.eqb s EmptyString)
  | VBuf _ | VArr _ | VObj _ => true
  end.

(** [v[k]] on own properties: a missing property, or a property of a value
    that is not a plain object, reads as [undefined]. *)
Definition prop (v : value) (k : string) : value :=
  match v with
  | VObj o => default VUndef (o !! k)
  | _ => VUndef
  end.

(** [typeof v === 'string'], [Buffer.isBuffer(v)], [Array.isArray(v)] *)
Definition is_string (v : value) : bool :=
  match v with VStr _ => true | _ => false end.

Definition isBuffer (v : value) : bool :=
  match v with VBuf _ => true | _ => false end.

Definition isArray (v : value) : bool :=
  match v with VArr _ => true | _ => false end.

Definition array_items (v : value) : list value :=
  match v with VArr l => l | _ => [] end.

(** [{ count: n }] *)
Definition count_info (n : Z) : value := VObj {[ "count" := VNum n ]}.

(** ** Errors and promises *)

Inductive error : Type :=
  | ConfigurationError   (* 'Database name must be specified ...' *)
  | NotFound             (* 404 *)
  | Conflict             (* 409 *)
  | PreconditionFailed   (* 412 *)
  | BadRequest           (* 400 *)
  | TypeError.

(** How a call ends: the promise it returned was fulfilled or rejected, or the
    call threw before any promise existed. *)
Inductive outcome (A : Type) : Type :=
  | Resolved (a : A)
  | Rejected (e : error)
  | Thrown (e : error).

Arguments Resolved {A} a.
Arguments Rejected {A} e.
Arguments Thrown {A} e.

(** ** The document server *)

(** Modelled from the spec: a stored document, as its revision generation and
    its fields without the store-managed [_id] and [_rev]; a server holds
    databases by name, each a map from identifiers to documents. *)
Record sdoc : Type := SDoc { sd_rev : N; sd_body : obj }.

Record server : Type := Server {
  dbs : gmap string (gmap string sdoc);
  uuids : N
}.

Inductive request : Type :=
  | ReqGet (dbname : string) (id : value)
  | ReqInsert (dbname : string) (doc : value) (opts : option obj)
  | ReqDestroy (dbname : string) (id rev : value)
  | ReqDbGet (name : option string)
  | ReqDbCreate (name : option string)
  | ReqDbDestroy (name : option string).

(** ** The connector object *)

Record Settings : Type := MkSettings {
  database : option string;
  db : option string;
  designDocs : option (gmap string obj)
}.

(** The resolved value of [this._connection]: the database handle
    [nano.use(name)] of the client numbered [h_nano]. *)
Record Handle : Type := MkHandle { h_nano : nat; h_db : string }.

Record CouchDB : Type := MkCouchDB {
  settings : Settings;
  idName : string → string;
  _nano : option nat;
  _db : option nat;
  _connection : option Handle
}.

Abbreviation loc := nat (only parsing).

Record world : Type := World {
  this : CouchDB;
  heap : list obj;
  srv : server;
  log : list request;
  clients : nat
}.

Definition M (A : Type) : Type := world → outcome A * world.

Definition set_this (c : CouchDB) (w : world) : world :=
  World c (heap w) (srv w) (log w) (clients w).

Definition set_heap (h : list obj) (w : world) : world :=
  World (this w) h (srv w) (log w) (clients w).

Definition set_srv (s : server) (w : world) : world :=
  World (this w) (heap w) s (log w) (clients w).

Definition send (r : request) (w : world) : world :=
  World (this w) (heap w) (srv w) (log w ++ [r]) (clients w).

(** The object a reference points to, and [o[k] = v] through a reference. *)
Definition deref (w : world) (l : loc) : obj := default ∅ (heap w !! l).

Definition deref_opt (w : world) (l : option loc) : option obj :=
  match l with
  | Some r => Some (deref w r)
  | None => None
  end.

Definition set_prop (l : loc) (k : string) (v : value) (w : world) : world :=
  set_heap (<[ l := <[ k := v ]> (deref w l) ]> (heap w)) w.

(** ** Promise combinators (bluebird) *)

Definition resolve {A} (a : A) : M A := fun w => (Resolved a, w).
Definition reject {A} (e : error) : M A := fun w => (Rejected e, w).
Definition throw {A} (e : error) : M A := fun w => (Thrown e, w).

(** A handler that throws rejects the promise derived from it. *)
Definition handler {A} (m : M A) : M A := fun w =>
  match m w with
  | (Thrown e, w') => (Rejected e, w')
  | r => r
  end.

(** [p.then(f)] (and [p.call(method, ...)]) *)
Definition then_ {A B} (p : M A) (f : A → M B) : M B := fun w =>
  match p w with
  | (Resolved a, w') => handler (f a) w'
  | (Rejected e, w') => (Rejected e, w')
  | (Thrown e, w') => (Thrown e, w')
  end.

(** [p.then(f, g)]: [g] sees a rejection of [p], not one of [f]. *)
Definition then2 {A B} (p : M A) (f : A → M B) (g : error → M B) : M B := fun w =>
  match p w with
  | (Resolved a, w') => handler (f a) w'
  | (Rejected e, w') => handler (g e) w'
  | (Thrown e, w') => (Thrown e, w')
  end.

(** [p.return(b)] and [p.catchReturn(a)] *)
Definition return_ {A B} (p : M A) (b : B) : M B := then_ p (fun _ => resolve b).

Definition catchReturn {A} (p : M A) (a : A) : M A := fun w =>
  match p w with
  | (Rejected _, w') => (Resolved a, w')
  | r => r
  end.

(** [var x = call(); ... x.then(...) ... x.then(...)]: the call runs once (and
    may throw); the promise it returned is then used as often as needed. *)
Definition settled {A} (r : outcome A) : M A := fun w => (r, w).

Definition let_promise {A B} (m : M A) (k : M A → M B) : M B := fun w =>
  match m w with
  | (Thrown e, w') => (Thrown e, w')
  | (r, w') => k (settled r) w'
  end.

(** [Promise.map]: the mapper runs on every item; the result keeps the order
    of the items, and the first rejection in that order rejects the whole. *)
Fixpoint promise_map {A B} (f : A → M B) (l : list A) : M (list B) :=
  match l with
  | [] => resolve []
  | x :: l' => fun w =>
      let '(r, w1) := handler (f x) w in
      let '(rs, w2) := promise_map f l' w1 in
      (match r, rs with
       | Resolved b, Resolved bs => Resolved (b :: bs)
       | Resolved _, Rejected e => Rejected e
       | Resolved _, Thrown e => Rejected e
       | Rejected e, _ => Rejected e
       | Thrown e, _ => Rejected e
       end, w2)
  end.

(** [p.filter(Boolean)] *)
Definition filter_Boolean (p : M (list value)) : M (list value) :=
  then_ p (fun l => resolve (filter (fun v => truthy v = true) l)).

(** ** The transport

    The transport collaborator (the [nano] client) is outside the repository;
    the connector only needs the capability the specification lists for it. *)

(** Modelled from the spec: the revision token [_rev] is opaque and changes on
    every successful write; the model prints the generation number. *)
Definition rev_token (n : N) : value := VStr (pretty n).

(** Modelled from the spec: a write to an existing document must present the
    document's current [_rev]. *)
Definition rev_matches (v : option value) (n : N) : bool :=
  match v with
  | Some (VStr s) => String.eqb s (pretty n)
  | _ => false
  end.

(** Modelled from the spec: a Document is the Record's fields plus the two
    store-managed fields [_id] and [_rev]. *)
Definition stored_doc (id : string) (d : sdoc) : obj :=
  <[ "_id" := VStr id ]> (<[ "_rev" := rev_token (sd_rev d) ]> (sd_body d)).

(** Modelled from the spec: the fields the store keeps of a written document,
    [_id] and [_rev] being its own. *)
Definition strip (o : obj) : obj := delete "_id" (delete "_rev" o).

(** Modelled from the spec: documents are addressed by a string identifier
    within one database. *)
Definition lookup_doc (s : server) (dbname : string) (id : value) : option sdoc :=
  match id with
  | VStr i => dbs s !! dbname ≫= (λ docs, docs !! i)
  | _ => None
  end.

Arguments lookup_doc : simpl never.

(** Modelled from the spec: a successful put answers [{id, rev}]. *)
Definition receipt (i : string) (r : N) : value :=
  VObj {[ "ok" := VBool true; "id" := VStr i; "rev" := rev_token r ]}.

(** Modelled from the spec: storing and removing one document of a database. *)
Definition write_doc (dbname i : string) (d : sdoc) (s : server) : server :=
  Server (alter (insert i d) dbname (dbs s)) (uuids s).

Definition remove_doc (dbname i : string) (s : server) : server :=
  Server (alter (delete i) dbname (dbs s)) (uuids s).

(** Modelled from the spec: [put(document, opts) -> {id, rev} | Conflict]; a
    put on an existing document succeeds only with its current [_rev] and
    moves it to the next revision; a put in a database that does not exist is
    not found. *)
Definition put_doc (dbname i : string) (body : obj) (s : server) : outcome value * server :=
  match dbs s !! dbname with
  | None => (Rejected NotFound, s)
  | Some docs =>
      match docs !! i with
      | Some d =>
          if rev_matches (body !! "_rev") (sd_rev d)
          then (Resolved (receipt i (N.succ (sd_rev d))),
                write_doc dbname i (SDoc (N.succ (sd_rev d)) (strip body)) s)
          else (Rejected Conflict, s)
      | None =>
          match body !! "_rev" with
          | None => (Resolved (receipt i 1), write_doc dbname i (SDoc 1 (strip body)) s)
          | Some _ => (Rejected Conflict, s)
          end
      end
  end.

Definition on_server {A} (f : server → outcome A * server) : M A := fun w =>
  let '(r, s) := f (srv w) in (r, set_srv s w).

(** Modelled from the spec: when the document carries no identifier the store
    assigns one. *)
Definition uuid (s : server) : string := "uuid-" ++ pretty (uuids s).

Definition take_uuid (s : server) : server := Server (dbs s) (N.succ (uuids s)).

(** Modelled from the spec: [get(id, opts) -> Document | NotFound], the
    [db.get(id, opts)] of the client. *)
Definition getAsync (h : Handle) (id : value) : M value := fun w =>
  let w' := send (ReqGet (h_db h) id) w in
  match id with
  | VStr i =>
      match lookup_doc (srv w) (h_db h) id with
      | Some d => (Resolved (VObj (stored_doc i d)), w')
      | None => (Rejected NotFound, w')
      end
  | _ => (Rejected NotFound, w')
  end.

(** Modelled from the spec: the [db.insert(doc, opts)] of the client, a put
    addressed by [opts.docName] when that is given, else by the document's own
    [_id], else by an id the store assigns.  The objects handed in are not
    changed. *)
Definition insertAsync (h : Handle) (doc : value) (opts : option obj) : M value := fun w =>
  let w' := send (ReqInsert (h_db h) doc opts) w in
  match doc with
  | VObj body =>
      let docName := default VUndef (opts ≫= (λ o, o !! "docName")) in
      if truthy docName then
        match docName with
        | VStr i => on_server (put_doc (h_db h) i body) w'
        | _ => (Rejected BadRequest, w')
        end
      else
        match body !! "_id" with
        | Some (VStr i) => on_server (put_doc (h_db h) i body) w'
        | None => on_server (λ s, put_doc (h_db h) (uuid s) body (take_uuid s)) w'
        | Some _ => (Rejected BadRequest, w')
        end
  | _ => (Rejected BadRequest, w')
  end.

(** Modelled from the spec: [delete(id, rev) -> ok | NotFound | Conflict],
    the [db.destroy(id, rev)] of the client. *)
Definition destroyAsync (h : Handle) (id rev : value) : M value := fun w =>
  let w' := send (ReqDestroy (h_db h) id rev) w in
  match id with
  | VStr i =>
      match lookup_doc (srv w) (h_db h) id with
      | Some d =>
          if rev_matches (Some rev) (sd_rev d)
          then (Resolved (receipt i (N.succ (sd_rev d))),
                set_srv (remove_doc (h_db h) i (srv w)) w')
          else (Rejected Conflict, w')
      | None => (Rejected NotFound, w')
      end
  | _ => (Rejected NotFound, w')
  end.

Arguments getAsync : simpl never.
Arguments insertAsync : simpl never.
Arguments destroyAsync : simpl never.

(** Modelled from the spec: the database a name designates; [undefined] and
    the empty string name none, and a request that names no database changes
    no database. *)
Definition named (name : option string) : option string :=
  match name with
  | Some n => if String.eqb n EmptyString then None else Some n
  | None => None
  end.

Definition ok_info : value := VObj {[ "ok" := VBool true ]}.

(** Modelled from the spec: [databaseExists(name)], the [nano.db.get(name)]
    of the client. *)
Definition db_getAsync (name : option string) : M value := fun w =>
  let w' := send (ReqDbGet name) w in
  match named name with
  | Some n =>
      match dbs (srv w) !! n with
      | Some _ => (Resolved (VObj {[ "db_name" := VStr n ]}), w')
      | None => (Rejected NotFound, w')
      end
  | None => (Rejected NotFound, w')
  end.

(** Modelled from the spec: [createDatabase(name)], the
    [nano.db.create(name)] of the client; an existing database is not created
    again. *)
Definition db_createAsync (name : option string) : M value := fun w =>
  let w' := send (ReqDbCreate name) w in
  match named name with
  | Some n =>
      match dbs (srv w) !! n with
      | Some _ => (Rejected PreconditionFailed, w')
      | None => (Resolved ok_info,
                 set_srv (Server (<[ n := ∅ ]> (dbs (srv w))) (uuids (srv w))) w')
      end
  | None => (Rejected BadRequest, w')
  end.

(** Modelled from the spec: [destroyDatabase(name)], the
    [nano.db.destroy(name)] of the client. *)
Definition db_destroyAsync (name : option string) : M value := fun w =>
  let w' := send (ReqDbDestroy name) w in
  match named name with
  | Some n =>
      match dbs (srv w) !! n with
      | Some _ => (Resolved ok_info,
                   set_srv (Server (delete n (dbs (srv w))) (uuids (srv w))) w')
      | None => (Rejected NotFound, w')
      end
  | None => (Rejected NotFound, w')
  end.

(** ** Helpers of the host framework

    [getIdValue], [setIdValue] and [idName] are inherited from the
    [loopback-connector] base class and [merge] comes from [mixable-object];
    neither is part of the repository. *)

(** Modelled from the spec: the identifier resolver extracts the identifier
    field of a record, [data && data[idName]]. *)
Definition getIdValue (c : CouchDB) (modelName : string) (data : value) : value :=
  if truthy data then prop data (idName c modelName) else data.

(** Modelled from the spec: the identifier resolver injects the identifier
    field into a document, [if (data) data[idName] = value]. *)
Definition setIdValue (c : CouchDB) (modelName : string) (data v : value) : value :=
  match data with
  | VObj o => VObj (<[ idName c modelName := v ]> o)
  | _ => data
  end.

(** Modelled from the spec: [merge.call(target, source)] starts from the
    stored fields, overwrites with the configured fields and keeps the rest. *)
Definition merge (target : value) (source : obj) : value :=
  match target with
  | VObj o => VObj (source ∪ o)
  | _ => target
  end.

(** [Object.keys(o)] *)
Definition Object_keys {A} (o : gmap string A) : list string := (map_to_list o).*1.

(** ** The connector (lib/couchdb.js) *)

(** [a || b] on configured names: [undefined] and [''] are falsy. *)
Definition or_else (a b : option string) : option string :=
  match named a with
  | Some _ => a
  | None => b
  end.

(** [CouchDB.prototype.connect] *)
Definition connect : M Handle := fun w =>
  match _connection (this w) with
  | None =>
      let c := this w in
      let database := or_else (database (settings c)) (db (settings c)) in
      match named database with
      | None => throw ConfigurationError w
      | Some n =>
          let k := S (clients w) in
          let h := MkHandle k n in
          (Resolved h,
           World (MkCouchDB (settings c) (idName c) (Some k) (Some k) (Some h))
                 (heap w) (srv w) (log w) k)
      end
  | Some h => (Resolved h, w)
  end.

(** [CouchDB.prototype.disconnect] *)
Definition disconnect : M bool := fun w =>
  match _connection (this w) with
  | None => (Resolved true, w)
  | Some _ =>
      let c := this w in
      (Resolved true, set_this (MkCouchDB (settings c) (idName c) None None None) w)
  end.

(** [this._db.call(method, name)] *)
Definition db_call {A} (op : M A) : M A := fun w =>
  match _db (this w) with
  | Some _ => op w
  | None => throw TypeError w
  end.

(** [CouchDB.prototype.findById] *)
Definition findById (modelName : string) (id : value) (options : option loc) : M value :=
  then_ (then_ connect (fun h => getAsync h id)) (fun data w =>
    if is_nullish data then (Rejected NotFound, w)
    else (Resolved (setIdValue (this w) modelName data (prop data "_id")), w)).

(** [CouchDB.prototype.destroyById] *)
Definition destroyById (modelName : string) (id : value) (options : option loc) : M value :=
  let_promise connect (fun connection =>
    then_ (then_ connection (fun h => getAsync h id)) (fun data =>
      if is_nullish data then reject NotFound
      else then_ connection (fun h => destroyAsync h (prop data "_id") (prop data "_rev")))).

(** [CouchDB.prototype.getKeysFromWhere] *)
Definition getKeysFromWhere (c : CouchDB) (modelName : string) (where_ : value) : value :=
  let key := getIdValue c modelName where_ in
  if is_nullish key then VArr []
  else if is_string key || isBuffer key then VArr [key]
  else if isArray (prop key "inq") then prop key "inq"
  else VArr [].

(** [CouchDB.prototype.create] *)
Definition create (modelName : string) (data : loc) (options : option loc)
  : M (value * value) := fun w =>
  let id := getIdValue (this w) modelName (VObj (deref w data)) in
  let doc := if negb (is_nullish id) then <[ "_id" := id ]> (deref w data)
             else deref w data in
  then_ (then_ connect (fun h => insertAsync h (VObj doc) (deref_opt w options)))
        (fun data => resolve (prop data "id", prop data "rev")) w.

(** [CouchDB.prototype.save] *)
Definition save (modelName : string) (data : loc) (options : option loc) : M value := fun w =>
  let id := getIdValue (this w) modelName (VObj (deref w data)) in
  match options with
  | None =>
      let options := if negb (is_nullish id) then {[ "docName" := id ]} else ∅ in
      then_ connect (fun h => insertAsync h (VObj (deref w data)) (Some options)) w
  | Some o =>
      let w1 := if negb (is_nullish id) then set_prop o "docName" id w else w in
      then_ connect (fun h => insertAsync h (VObj (deref w1 data)) (Some (deref w1 o))) w1
  end.

(** [CouchDB.prototype.destroy] *)
Definition destroy (modelName : string) (id : value) (options : option loc) : M value :=
  catchReturn (return_ (destroyById modelName id options) (count_info 1)) (count_info 0).

(** [CouchDB.prototype.replaceById] *)
Definition replaceById (modelName : string) (id : value) (data : loc) (options : option loc)
  : M value :=
  then_ (then_ (findById modelName id options) (fun res w =>
           save modelName data options (set_prop data "_rev" (prop res "_rev") w)))
        (fun _ => findById modelName id options).

(** [CouchDB.prototype.all] *)
Definition all (modelName : string) (query : value) (options : option loc)
  : M (list value) := fun w =>
  if is_nullish (prop query "where") then resolve [] w
  else
    let keys := getKeysFromWhere (this w) modelName (prop query "where") in
    if truthy keys then
      filter_Boolean
        (promise_map (fun id => catchReturn (findById modelName id options) (VBool false))
                     (array_items keys)) w
    else resolve [] w.

(** [CouchDB.prototype.destroyAll] *)
Definition destroyAll (modelName : string) (where_ : value) (options : option loc)
  : M value := fun w =>
  let keys := getKeysFromWhere (this w) modelName where_ in
  if truthy keys then
    then_ (filter_Boolean
             (promise_map (fun id => catchReturn (destroyById modelName id options) (VBool false))
                          (array_items keys)))
          (fun l => resolve (count_info (Z.of_nat (length l)))) w
  else resolve (count_info 0) w.

(** [CouchDB.prototype.getDB] *)
Definition getDB : M value := fun w =>
  catchReturn (db_call (db_getAsync (database (settings (this w))))) (VBool false) w.

(** One design document of [saveDesignDocs]: the body of the mapper. *)
Definition saveDesignDoc (connection : M Handle) (designDocs : gmap string obj)
    (name : string) : M value :=
  let _id := "_design/" ++ name in
  let options := {[ "docName" := VStr _id ]} in
  then2 (then_ connection (fun h => getAsync h (VStr _id)))
    (fun data =>
       then_ connection (fun h =>
         insertAsync h (merge data (designDocs !!! name)) (Some options)))
    (fun err =>
       then_ connection (fun h =>
         insertAsync h (VObj (designDocs !!! name)) (Some options))).

(** [CouchDB.prototype.saveDesignDocs] *)
Definition saveDesignDocs : M (list value) :=
  let_promise connect (fun connection w =>
    match designDocs (settings (this w)) with
    | Some designDocs =>
        promise_map (saveDesignDoc connection designDocs) (Object_keys designDocs) w
    | None => throw TypeError w
    end).

Definition has_designDocs (c : CouchDB) : bool :=
  match designDocs (settings c) with Some _ => true | None => false end.

(** [CouchDB.prototype.autoupdate] *)
Definition autoupdate (models : list string) : M value :=
  let_promise connect (fun connection =>
    let promise :=
      then_ (then_ connection (fun _ => getDB)) (fun res w =>
        if truthy res then resolve res w
        else then_ (db_call (db_createAsync (database (settings (this w)))))
                   (fun _ => getDB) w) in
    fun w =>
      if negb (has_designDocs (this w)) then promise w
      else then_ promise (fun res => return_ saveDesignDocs res) w).

(** [CouchDB.prototype.automigrate] *)
Definition automigrate (models : list string) : M value :=
  let promise :=
    then_ (then_ (then_ connect (fun _ => getDB)) (fun res w =>
             if negb (truthy res) then resolve VUndef w
             else db_call (db_destroyAsync (database (settings (this w)))) w))
          (fun _ w =>
             then_ (db_call (db_createAsync (database (settings (this w)))))
                   (fun _ => getDB) w) in
  fun w =>
    if negb (has_designDocs (this w)) then promise w
    else then_ promise (fun res => return_ saveDesignDocs res) w.

(** [new CouchDB(settings, dataSource)] in a world with the given server and
    caller objects. *)
Definition new_CouchDB (s : Settings) (idn : string → string) : CouchDB :=
  MkCouchDB s idn None None None.

Definition init_world (s : Settings) (idn : string → string) (objs : list obj)
    (sv : server) : world :=
  World (new_CouchDB s idn) objs sv [] 0.

(** [exports.initialize]: build the connector, then connect. *)
Definition initialize (s : Settings) (idn : string → string) (objs : list obj)
    (sv : server) : outcome Handle * world :=
  connect (init_world s idn objs sv).

(** ** Vocabulary of the specification *)

(** Filter-to-key translation as the specification words it: the value bound
    to the identifier field; absent gives no key, a string or a byte sequence
    gives itself, an ["inq"] operator carrying a sequence gives that sequence,
    any other shape gives no key. *)
Definition keysFromFilter (idField : string) (where_ : obj) : list value :=
  match where_ !! idField with
  | None => []
  | Some (VStr s) => [VStr s]
  | Some (VBuf b) => [VBuf b]
  | Some (VObj op) =>
      match op !! "inq" with
      | Some (VArr l) => l
      | _ => []
      end
  | Some _ => []
  end.

(** The database name [connect] settles on, from the configuration. *)
Definition db_name (c : CouchDB) : option string :=
  named (or_else (database (settings c)) (db (settings c))).

(** The database the connector is bound to: the one of its connection handle
    when it has one, else the one the next [connect] will bind. *)
Definition bound_db (w : world) : option string :=
  match _connection (this w) with
  | Some h => Some (h_db h)
  | None => db_name (this w)
  end.

(** The world once the connection handle exists. *)
Definition attach (w : world) : world := (connect w).2.

(** The world after more requests went out. *)
Definition sent (rs : list request) (w : world) : world :=
  World (this w) (heap w) (srv w) (log w ++ rs) (clients w).

(** The document the store answers a get with, when it has it. *)
Definition raw_doc (s : server) (n : string) (id : value) : option value :=
  match id with
  | VStr i => (λ d, VObj (stored_doc i d)) <$> lookup_doc s n id
  | _ => None
  end.

(** The document [findById] answers with, when the store has it. *)
Definition found_doc (idField : string) (s : server) (n : string) (id : value)
  : option value :=
  match id with
  | VStr i =>
      (λ d, VObj (<[ idField := VStr i ]> (stored_doc i d))) <$> lookup_doc s n id
  | _ => None
  end.

Definition found_or_404 (o : option value) : outcome value :=
  match o with
  | Some v => Resolved v
  | None => Rejected NotFound
  end.

(** The fields stored under an id. *)
Definition stored_fields (s : server) (n : string) (id : value) : option obj :=
  sd_body <$> lookup_doc s n id.

(** The connection slot is consistent: a handle it holds was made by one of
    the clients created so far and is bound to the configured database. *)
Definition wf_connection (w : world) : Prop :=
  match _connection (this w) with
  | Some h =>
      (h_nano h ≤ clients w)%nat
      ∧ db_name (this w) = Some (h_db h)
      ∧ _nano (this w) = Some (h_nano h)
      ∧ _db (this w) = Some (h_nano h)
  | None => _nano (this w) = None ∧ _db (this w) = None
  end.

(** What [destroyById] does on a bound connector: it reads the document, and
    deletes it with the revision it has just read. *)
Definition destroyed (n : string) (id : value) (w : world) : outcome value * world :=
  match id, lookup_doc (srv w) n id with
  | VStr i, Some d =>
      (Resolved (receipt i (N.succ (sd_rev d))),
       set_srv (remove_doc n i (srv w))
               (sent [ReqGet n id; ReqDestroy n id (rev_token (sd_rev d))] (attach w)))
  | _, _ => (Rejected NotFound, send (ReqGet n id) (attach w))
  end.

(** ** Frame conditions *)

Definition keeps_heap {A} (m : M A) : Prop := ∀ w, heap (m w).2 = heap w.

Create HintDb frame discriminated.

(** [save] seen from the caller: the world once [options.docName] is set, and
    the options object the store receives. *)
Definition save_effect (modelName : string) (data : loc) (options : option loc)
    (w : world) : world :=
  match options with
  | Some o =>
      let id := getIdValue (this w) modelName (VObj (deref w data)) in
      if negb (is_nullish id) then set_prop o "docName" id w else w
  | None => w
  end.

Definition save_options (modelName : string) (data : loc) (options : option loc)
    (w : world) : obj :=
  match options with
  | Some o => deref (save_effect modelName data options w) o
  | None =>
      let id := getIdValue (this w) modelName (VObj (deref w data)) in
      if negb (is_nullish id) then {[ "docName" := id ]} else ∅
  end.

(** ** Design documents *)

Definition design_id (name : string) : string := "_design/" ++ name.

(** A put seen from the slot of the addressed document. *)
Definition put_slot (body : obj) (slot : option sdoc) : option sdoc :=
  match slot with
  | Some d =>
      if rev_matches (body !! "_rev") (sd_rev d)
      then Some (SDoc (N.succ (sd_rev d)) (strip body))
      else Some d
  | None =>
      match body !! "_rev" with
      | None => Some (SDoc 1 (strip body))
      | Some _ => None
      end
  end.

(** The document [saveDesignDocs] writes for one definition: the definition
    merged onto what was read, or the definition alone. *)
Definition merged_body (def : obj) (id : string) (slot : option sdoc) : obj :=
  match slot with
  | Some d => def ∪ stored_doc id d
  | None => def
  end.

Definition synced_slot (def : obj) (id : string) (slot : option sdoc) : option sdoc :=
  put_slot (merged_body def id slot) slot.

Definition design_sync (n : string) (dd : gmap string obj) (s : server) (name : string)
  : server :=
  (put_doc n (design_id name)
           (merged_body (dd !!! name) (design_id name)
                        (lookup_doc s n (VStr (design_id name)))) s).2.

(** What a database holds for a slot, given that the database exists. *)
Definition in_db (s : server) (n : string) (slot : option sdoc) : option sdoc :=
  match dbs s !! n with
  | Some _ => slot
  | None => None
  end.

(** ** Database lifecycle *)

Definition db_info (n : string) : value := VObj {[ "db_name" := VStr n ]}.

(** The [promise] of [automigrate]: check, destroy, create, check again. *)
Definition migrate_steps : M value :=
  then_ (then_ (then_ connect (fun _ => getDB)) (fun res w =>
           if negb (truthy res) then resolve VUndef w
           else db_call (db_destroyAsync (database (settings (this w)))) w))
        (fun _ w =>
           then_ (db_call (db_createAsync (database (settings (this w)))))
                 (fun _ => getDB) w).

(** The world after the steps on an existing database: the database is there
    again, and empty. *)
Definition migrated (n : string) (w : world) : world :=
  let name := database (settings (this w)) in
  set_srv (Server (<[ n := ∅ ]> (delete n (dbs (srv w)))) (uuids (srv w)))
          (sent [ReqDbGet name; ReqDbDestroy name; ReqDbCreate name; ReqDbGet name]
                (attach w)).

(** ** Concrete worlds *)

(** A database [mydb] holding documents [a] and [b]. *)
Definition example_docs : gmap string sdoc :=
  {[ "a" := SDoc 1 {[ "name" := VStr "A" ]};
     "b" := SDoc 2 {[ "name" := VStr "B" ]} ]}.

Definition example_server : server := Server {[ "mydb" := example_docs ]} 0.

(** A connector configured with [database: 'mydb'] and the identifier field
    [id]; the caller holds a record with an identifier, an empty options
    object and a record without identifier. *)
Definition example_world : world :=
  init_world (MkSettings (Some "mydb") None None) (λ _, "id")
    [ {[ "id" := VStr "a"; "name" := VStr "new" ]}; ∅; {[ "name" := VStr "x" ]} ]
    example_server.

(** [{where: {id: {inq: ['a', 'missing', 'b']}}}] *)
Definition example_inq : obj := {[ "inq" := VArr [VStr "a"; VStr "missing"; VStr "b"] ]}.
Definition example_where : obj := {[ "id" := VObj example_inq ]}.
Definition example_query : value := VObj {[ "where" := VObj example_where ]}.

(** A connector without any database name. *)
Definition unconfigured_world : world :=
  init_world (MkSettings None None None) (λ _, "id") [] example_server.

(** A connector configured with [db: 'mydb'] only, on a server without that
    database. *)
Definition db_key_world : world :=
  init_world (MkSettings None (Some "mydb") None) (λ _, "id") [] (Server ∅ 0).

(** A connector with one configured design document [foo]; the database holds
    [_design/foo] with an older view and a field [language] that another
    writer added, and a document [a]. *)
Definition foo_definition : obj := {[ "views" := VObj {[ "byName" := VStr "map" ]} ]}.

Definition design_docs : gmap string sdoc :=
  {[ "_design/foo" := SDoc 3 {[ "views" := VObj ∅; "language" := VStr "javascript" ]};
     "a" := SDoc 1 {[ "name" := VStr "A" ]} ]}.

Definition design_world : world :=
  init_world (MkSettings (Some "mydb") None (Some {[ "foo" := foo_definition ]}))
    (λ _, "id") [] (Server {[ "mydb" := design_docs ]} 0).

(** ** The server URL (lib/couchdb.js, lines 19-25, 50-58 and 407-412) *)

(** The URL part of the settings object: [hostname], [host], [protocol] and
    [url] are strings, [port] is an integer; an absent key is [None]. *)
Record UrlOptions : Type := MkUrlOptions {
  hostname : option string;
  host : option string;
  protocol : option string;
  port : option Z;
  url : option string
}.

(** [a || b] on a string setting and a string. *)
Definition or_string (a : option string) (b : string) : string :=
  match named a with
  | Some s => s
  | None => b
  end.

(** [a || b] on a number setting and a number: [undefined] and [0] are falsy. *)
Definition or_number (a : option Z) (b : Z) : Z :=
  match a with
  | Some z => if (z =? 0)%Z then b else z
  | None => b
  end.

(** [generateCouchDBURL(options)]: the URL, and the options object as the
    three assignments leave it. *)
Definition generateCouchDBURL (options : UrlOptions) : string * UrlOptions :=
  let hostname := or_string (hostname options) (or_string (host options) "127.0.0.1") in
  let protocol := or_string (protocol options) "http" in
  let port := or_number (port options) 5984 in
  (protocol ++ "://" ++ hostname ++ ":" ++ pretty port,
   MkUrlOptions (Some hostname) (host options) (Some protocol) (Some port) (url options)).

(** The constructor's [settings.url = settings.url || generateCouchDBURL(settings)]. *)
Definition CouchDB_url (settings : UrlOptions) : UrlOptions :=
  match named (url settings) with
  | Some _ => settings
  | None =>
      let '(u, settings') := generateCouchDBURL settings in
      MkUrlOptions (hostname settings') (host settings') (protocol settings')
                   (port settings') (Some u)
  end.

(** The last character of a string. *)
Fixpoint last_char (s : string) : option Ascii.ascii :=
  match s with
  | EmptyString => None
  | String c EmptyString => Some c
  | String _ s' => last_char s'
  end.

(** [/[^\/]$/.test(s)]: the string ends with a character that is not a slash. *)
Definition test_no_trailing_slash (s : string) : bool :=
  match last_char s with
  | Some c => negb (Ascii.eqb c "/"%char)
  | None => false
  end.

(** [urlResolveFix(couchUrl, dbName)]; [url.resolve] of Node is a parameter. *)
Definition urlResolveFix (url_resolve : string → string → string)
    (couchUrl dbName : string) : string :=
  let couchUrl := if test_no_trailing_slash couchUrl then couchUrl ++ "/" else couchUrl in
  url_resolve couchUrl dbName.

(** ** Bulk deletion *)

(** The server once the document under a key is gone: a key that names no
    stored document leaves it as it is. *)
Definition removed (n : string) (k : value) (s : server) : server :=
  match k, lookup_doc s n k with
  | VStr i, Some _ => remove_doc n i s
  | _, _ => s
  end.

(** ** Database lifecycle on any server *)

(** The server once the database [n] is there: as it was when the database
    existed, else with an empty database [n]. *)
Definition ensured (n : string) (s : server) : server :=
  match dbs s !! n with
  | Some _ => s
  | None => Server (<[ n := ∅ ]> (dbs s)) (uuids s)
  end.

(** The server with the database [n] there and empty. *)
Definition emptied (n : string) (s : server) : server :=
  Server (<[ n := ∅ ]> (dbs s)) (uuids s).

(** The design-document sync that ends a lifecycle hook when design documents
    are configured. *)
Definition synced (n : string) (dd : option (gmap string obj)) (s : server) : server :=
  match dd with
  | Some dd => foldl (design_sync n dd) s (Object_keys dd)
  | None => s
  end.


(** ** More concrete worlds *)

(** Settings that name the host under [host] only. *)
Definition host_options : UrlOptions :=
  MkUrlOptions None (Some "couch.local") None None None.

(** Settings that name the host under [hostname] too, and a port. *)
Definition hostname_options : UrlOptions :=
  MkUrlOptions (Some "db.local") (Some "couch.local") None (Some 6984%Z) None.

(** Settings with a [url]. *)
Definition url_options : UrlOptions :=
  MkUrlOptions None None None None (Some "https://couch.example.org").

(** A connector without any database name whose caller holds a record with
    an identifier and an empty options object. *)
Definition unnamed_world : world :=
  init_world (MkSettings None None None) (λ _, "id")
    [ {[ "id" := VStr "a"; "name" := VStr "new" ]}; ∅ ] example_server.

(** The connector of [example_world]; the caller holds a record whose
    identifier [c] is not in the database. *)
Definition fresh_world : world :=
  init_world (MkSettings (Some "mydb") None None) (λ _, "id")
    [ {[ "id" := VStr "c"; "name" := VStr "C" ]} ] example_server.

(** The connector of [design_world] on a server without any database. *)
Definition bare_world : world :=
  init_world (MkSettings (Some "mydb") None (Some {[ "foo" := foo_definition ]}))
    (λ _, "id") [] (Server ∅ 0).

(** ** Basic facts about values and the transport *)

Lemma stored_doc_id i d : stored_doc i d !! "_id" = Some (VStr i).
Proof. unfold stored_doc. by rewrite lookup_insert_eq. Qed.

Lemma stored_doc_rev i d : stored_doc i d !! "_rev" = Some (rev_token (sd_rev d)).
Proof. unfold stored_doc. rewrite lookup_insert_ne by done. by rewrite lookup_insert_eq. Qed.

Lemma rev_matches_token n : rev_matches (Some (rev_token n)) n = true.
Proof. unfold rev_matches, rev_token. apply String.eqb_refl. Qed.

Lemma strip_lookup o k : k ≠ "_id" → k ≠ "_rev" → strip o !! k = o !! k.
Proof.
  intros H1 H2. unfold strip.
  rewrite lookup_delete_ne by done. by rewrite lookup_delete_ne.
Qed.

Lemma strip_union (a b : obj) : strip (a ∪ b) = strip a ∪ strip b.
Proof. unfold strip. by rewrite !delete_union. Qed.

Lemma strip_idemp (o : obj) : strip (strip o) = strip o.
Proof.
  unfold strip. apply map_eq. intros k.
  rewrite !lookup_delete. repeat case_decide; done.
Qed.

Lemma strip_stored_doc i d : strip (stored_doc i d) = strip (sd_body d).
Proof.
  unfold strip, stored_doc.
  rewrite (delete_insert_ne _ "_rev" "_id") by done.
  rewrite delete_insert_eq.
  by rewrite delete_insert_eq.
Qed.

(** ** The connection handle *)

Lemma connect_connected w h :
  _connection (this w) = Some h → connect w = (Resolved h, w).
Proof. intros H. unfold connect. by rewrite H. Qed.

Lemma connect_fresh w n :
  _connection (this w) = None → db_name (this w) = Some n →
  connect w =
    (Resolved (MkHandle (S (clients w)) n),
     World (MkCouchDB (settings (this w)) (idName (this w))
                      (Some (S (clients w))) (Some (S (clients w)))
                      (Some (MkHandle (S (clients w)) n)))
           (heap w) (srv w) (log w) (S (clients w))).
Proof. intros H Hn. unfold connect, db_name in *. by rewrite H, Hn. Qed.

Lemma connect_unconfigured w :
  _connection (this w) = None → db_name (this w) = None →
  connect w = (Thrown ConfigurationError, w).
Proof. intros H Hn. unfold connect, db_name in *. by rewrite H, Hn. Qed.

Lemma connect_bound w n :
  bound_db w = Some n →
  ∃ h, connect w = (Resolved h, attach w) ∧ h_db h = n
       ∧ _connection (this (attach w)) = Some h.
Proof.
  unfold bound_db, attach. intros H.
  destruct (_connection (this w)) as [h|] eqn:E.
  - exists h. rewrite (connect_connected _ _ E). naive_solver.
  - rewrite (connect_fresh _ _ E H). simpl. eexists. naive_solver.
Qed.

Lemma attach_frame w :
  heap (attach w) = heap w ∧ srv (attach w) = srv w ∧ log (attach w) = log w
  ∧ settings (this (attach w)) = settings (this w)
  ∧ idName (this (attach w)) = idName (this w).
Proof.
  unfold attach, connect.
  destruct (_connection (this w)); [done|].
  by destruct (named _).
Qed.

Lemma attach_connected w h : _connection (this w) = Some h → attach w = w.
Proof. intros H. unfold attach. by rewrite (connect_connected _ _ H). Qed.

(** ** Filter-to-key translation *)

Lemma getKeysFromWhere_object c modelName (where_ : obj) :
  getKeysFromWhere c modelName (VObj where_)
  = VArr (keysFromFilter (idName c modelName) where_).
Proof.
  unfold getKeysFromWhere, getIdValue, keysFromFilter. simpl.
  destruct (where_ !! idName c modelName) as [key|]; [|done].
  destruct key as [| | | | | | |op]; try done. simpl.
  destruct (op !! "inq") as [inq|]; [|done].
  by destruct inq.
Qed.

(** C4: key derivation coincides with the translation of the specification on
    every where clause: an identifier bound to a string or to a byte buffer
    gives that single key, an ["inq"] operator carrying an array gives that
    array itself (same order, same duplicates), and a clause without the
    identifier gives no key; the three examples of the specification hold. *)
Theorem getKeysFromWhere_spec :
  (∀ c modelName (where_ : obj),
     getKeysFromWhere c modelName (VObj where_)
     = VArr (keysFromFilter (idName c modelName) where_))
  ∧ (∀ c modelName (where_ : obj) s,
       getKeysFromWhere c modelName (VObj (<[ idName c modelName := VStr s ]> where_))
       = VArr [VStr s])
  ∧ (∀ c modelName (where_ : obj) b,
       getKeysFromWhere c modelName (VObj (<[ idName c modelName := VBuf b ]> where_))
       = VArr [VBuf b])
  ∧ (∀ c modelName (where_ op : obj) l,
       getKeysFromWhere c modelName
         (VObj (<[ idName c modelName := VObj (<[ "inq" := VArr l ]> op) ]> where_))
       = VArr l)
  ∧ (∀ c modelName (where_ : obj),
       getKeysFromWhere c modelName (VObj (delete (idName c modelName) where_)) = VArr [])
  ∧ (∀ s modelName,
       let c := new_CouchDB s (λ _, "id") in
       getKeysFromWhere c modelName (VObj {[ "id" := VStr "x" ]}) = VArr [VStr "x"]
       ∧ getKeysFromWhere c modelName
           (VObj {[ "id" := VObj {[ "inq" := VArr [VStr "a"; VStr "b"] ]} ]})
         = VArr [VStr "a"; VStr "b"]
       ∧ getKeysFromWhere c modelName (VObj {[ "name" := VStr "x" ]}) = VArr []).
Proof.
  split; [apply getKeysFromWhere_object|].
  split; [|split; [|split; [|split]]]; intros;
    rewrite ?getKeysFromWhere_object; unfold keysFromFilter.
  - by rewrite lookup_insert_eq.
  - by rewrite lookup_insert_eq.
  - rewrite lookup_insert_eq. by rewrite lookup_insert_eq.
  - by rewrite lookup_delete_eq.
  - by repeat split.
Qed.

(** ** The connection slot *)

Lemma wf_connection_init s idn objs sv : wf_connection (init_world s idn objs sv).
Proof. by split. Qed.

Lemma wf_connection_attach w : wf_connection w → wf_connection (attach w).
Proof.
  unfold wf_connection, attach, connect.
  destruct (_connection (this w)) as [h|] eqn:E; simpl; [by rewrite E|].
  destruct (named _) as [n|] eqn:En; simpl; [|by rewrite E].
  intros _. unfold db_name. simpl. by rewrite En.
Qed.

Lemma wf_connection_disconnect w : wf_connection w → wf_connection (disconnect w).2.
Proof.
  unfold wf_connection, disconnect.
  destruct (_connection (this w)) as [h|] eqn:E; simpl; [done|by rewrite E].
Qed.

Lemma wf_connection_db_name w h :
  wf_connection w → _connection (this w) = Some h →
  (h_nano h ≤ clients w)%nat ∧ db_name (this w) = Some (h_db h).
Proof.
  unfold wf_connection. intros Hwf E. rewrite E in Hwf.
  by destruct Hwf as (Hle & Hn & _).
Qed.

Lemma wf_connection_bound w n :
  wf_connection w → db_name (this w) = Some n → bound_db w = Some n.
Proof.
  intros Hwf Hn. unfold bound_db.
  destruct (_connection (this w)) as [h|] eqn:E; [|done].
  destruct (wf_connection_db_name _ _ Hwf E). congruence.
Qed.

Lemma attach_iter w h k : _connection (this w) = Some h → Nat.iter k attach w = w.
Proof.
  intros H. induction k as [|k IH]; [done|].
  simpl. rewrite IH. by apply attach_connected with h.
Qed.

(** C8: one connection slot per connector.  Once a handle is in the slot,
    every further [connect] returns that very handle and changes nothing (no
    new client is created), however often it is called; with no database name
    configured [connect] throws the configuration error; [disconnect] always
    succeeds, connected or not, and empties the slot, after which [connect]
    builds a handle on a new client, different from the handle held before. *)
Theorem connection_handle_lifecycle (w : world) :
  wf_connection w →
  (∀ h, _connection (this w) = Some h →
        ∀ k, connect (Nat.iter k attach w) = (Resolved h, w))
  ∧ (∀ n, db_name (this w) = Some n →
        ∃ h, connect w = (Resolved h, attach w) ∧ h_db h = n
             ∧ _connection (this (attach w)) = Some h
             ∧ ∀ k, connect (Nat.iter k attach (attach w)) = (Resolved h, attach w))
  ∧ (db_name (this w) = None → connect w = (Thrown ConfigurationError, w))
  ∧ (∃ w', disconnect w = (Resolved true, w')
           ∧ _connection (this w') = None ∧ _nano (this w') = None ∧ _db (this w') = None
           ∧ clients w' = clients w
           ∧ disconnect w' = (Resolved true, w')
           ∧ ∀ n, db_name (this w) = Some n →
                  ∃ h', connect w' = (Resolved h', attach w') ∧ h_db h' = n
                        ∧ h_nano h' = S (clients w)
                        ∧ ∀ h, _connection (this w) = Some h → h' ≠ h).
Proof.
  intros Hwf. split; [|split; [|split]].
  - intros h H k. rewrite (attach_iter _ _ _ H). by apply connect_connected.
  - intros n Hn.
    destruct (connect_bound _ _ (wf_connection_bound _ _ Hwf Hn)) as (h & Hc & Hh & Ha).
    exists h. repeat split; try done.
    intros k. rewrite (attach_iter _ _ _ Ha). by apply connect_connected.
  - intros Hn. apply connect_unconfigured; [|done].
    destruct (_connection (this w)) as [h|] eqn:E; [|done].
    destruct (wf_connection_db_name _ _ Hwf E). congruence.
  - destruct (_connection (this w)) as [h|] eqn:E.
    + set (w' := set_this (MkCouchDB (settings (this w)) (idName (this w)) None None None) w).
      assert (Hd : disconnect w = (Resolved true, w')) by (unfold disconnect; by rewrite E).
      exists w'. repeat split; try done.
      intros n Hn.
      assert (E' : _connection (this w') = None) by done.
      assert (Hn' : db_name (this w') = Some n) by done.
      eexists. unfold attach. rewrite (connect_fresh _ _ E' Hn'). simpl.
      repeat split; try done.
      intros h0 [= <-] Heq.
      destruct (wf_connection_db_name _ _ Hwf E) as [Hle _].
      rewrite <- Heq in Hle. simpl in Hle. lia.
    + assert (Hd : disconnect w = (Resolved true, w)) by (unfold disconnect; by rewrite E).
      exists w. unfold wf_connection in Hwf. rewrite E in Hwf. destruct Hwf.
      repeat split; try done.
      intros n Hn. eexists. unfold attach. rewrite (connect_fresh _ _ E Hn). simpl.
      repeat split; done.
Qed.

(** ** Reading documents *)

Lemma then_connect {B} (f : Handle → M B) w h :
  connect w = (Resolved h, attach w) → then_ connect f w = handler (f h) (attach w).
Proof. intros H. unfold then_. by rewrite H. Qed.

Lemma getAsync_spec h id w :
  getAsync h id w
  = (found_or_404 (raw_doc (srv w) (h_db h) id), send (ReqGet (h_db h) id) w).
Proof.
  unfold getAsync, raw_doc. destruct id; try done.
  by destruct (lookup_doc _ _ _).
Qed.

Lemma handler_getAsync h id w : handler (getAsync h id) w = getAsync h id w.
Proof.
  unfold handler. rewrite getAsync_spec.
  by destruct (raw_doc _ _ _).
Qed.

Lemma findById_connected w h modelName id options :
  _connection (this w) = Some h →
  findById modelName id options w
  = (found_or_404 (found_doc (idName (this w) modelName) (srv w) (h_db h) id),
     send (ReqGet (h_db h) id) w).
Proof.
  intros H. unfold findById, then_ at 1 2. rewrite (connect_connected _ _ H).
  rewrite handler_getAsync, getAsync_spec.
  unfold raw_doc, found_doc. destruct id; try done.
  destruct (lookup_doc _ _ _) as [d|]; [|done].
  simpl. by rewrite stored_doc_id.
Qed.

Lemma findById_bound w n modelName id options :
  bound_db w = Some n →
  findById modelName id options w
  = (found_or_404 (found_doc (idName (this w) modelName) (srv w) n id),
     send (ReqGet n id) (attach w)).
Proof.
  intros Hb. destruct (connect_bound _ _ Hb) as (h & Hc & <- & Ha).
  destruct (attach_frame w) as (_ & Hs & _ & _ & Hi).
  transitivity (findById modelName id options (attach w)).
  - unfold findById, then_.
    by rewrite Hc, (connect_connected _ _ Ha).
  - by rewrite (findById_connected _ _ _ _ _ Ha), Hs, Hi.
Qed.

Lemma found_doc_None idField s n id :
  lookup_doc s n id = None → found_doc idField s n id = None.
Proof. intros H. unfold found_doc. destruct id; try done. by rewrite H. Qed.

(** C2: on a connector bound to a database, [replaceById] on an id that has no
    stored document is rejected with [NotFound]; the server is unchanged, the
    caller's objects are unchanged, and the only request sent is the read. *)
Theorem replaceById_missing (w : world) (n modelName : string) (id : value)
    (data : loc) (options : option loc) :
  bound_db w = Some n →
  lookup_doc (srv w) n id = None →
  ∃ w', replaceById modelName id data options w = (Rejected NotFound, w')
        ∧ srv w' = srv w ∧ heap w' = heap w
        ∧ log w' = (log w ++ [ReqGet n id])%list.
Proof.
  intros Hb Hmiss. exists (send (ReqGet n id) (attach w)).
  destruct (attach_frame w) as (Hh & Hs & Hl & _).
  split; [|by rewrite <- Hh, <- Hs, <- Hl].
  unfold replaceById, then_ at 1 2.
  by rewrite (findById_bound _ _ _ _ _ Hb), (found_doc_None _ _ _ _ Hmiss).
Qed.

(** ** Bulk reads *)

Lemma bound_db_attach w n : bound_db w = Some n → bound_db (attach w) = Some n.
Proof.
  intros Hb. destruct (connect_bound _ _ Hb) as (h & _ & <- & Ha).
  unfold bound_db. by rewrite Ha.
Qed.

Lemma found_docs_truthy idField s n keys :
  filter (λ v, truthy v = true)
         (map (λ id, default (VBool false) (found_doc idField s n id)) keys)
  = omap (found_doc idField s n) keys.
Proof.
  induction keys as [|k keys IH]; [done|].
  simpl. destruct (found_doc idField s n k) as [v|] eqn:E; simpl.
  - assert (Hv : truthy v = true).
    { unfold found_doc in E. destruct k; try done.
      destruct (lookup_doc _ _ _); simplify_eq/=. done. }
    rewrite filter_cons_True by done. by rewrite IH.
  - rewrite filter_cons_False by done. done.
Qed.

Lemma fetch_or_false_bound w n modelName id options :
  bound_db w = Some n →
  handler (catchReturn (findById modelName id options) (VBool false)) w
  = (Resolved (default (VBool false)
                 (found_doc (idName (this w) modelName) (srv w) n id)),
     send (ReqGet n id) (attach w)).
Proof.
  intros Hb. unfold handler, catchReturn.
  rewrite (findById_bound _ _ _ _ _ Hb).
  by destruct (found_doc _ _ _ _).
Qed.

Lemma all_mapper_bound modelName options keys : ∀ w n,
  bound_db w = Some n →
  ∃ w', promise_map (λ id, catchReturn (findById modelName id options) (VBool false)) keys w
        = (Resolved (map (λ id, default (VBool false)
                                  (found_doc (idName (this w) modelName) (srv w) n id)) keys),
           w')
        ∧ srv w' = srv w ∧ heap w' = heap w
        ∧ log w' = (log w ++ map (ReqGet n) keys)%list.
Proof.
  induction keys as [|k keys IH]; intros w n Hb.
  - exists w. simpl. by rewrite app_nil_r.
  - destruct (attach_frame w) as (Hh & Hs & Hl & _ & Hi).
    set (w1 := send (ReqGet n k) (attach w)).
    assert (Hb1 : bound_db w1 = Some n) by by apply bound_db_attach.
    destruct (IH w1 n Hb1) as (w' & Hrun & Hs' & Hh' & Hl').
    exists w'. split.
    + simpl. rewrite (fetch_or_false_bound _ _ _ _ _ Hb). fold w1.
      rewrite Hrun. simpl. by rewrite Hi, Hs.
    + rewrite Hs', Hh', Hl'. simpl. rewrite Hh, Hs, Hl.
      by rewrite <- app_assoc.
Qed.

(** C1: on a connector bound to a database, [all] with an ["inq"] filter on
    the identifier reads every key of the list by id, in the order of the
    list, and is fulfilled with the documents that exist, in that same order;
    a key without a document is left out and is no error.  Nothing is written. *)
Theorem all_inq_existing_in_key_order (w : world) (n modelName : string)
    (query : value) (options : option loc) (where_ op : obj) (keys : list value) :
  bound_db w = Some n →
  prop query "where" = VObj where_ →
  where_ !! idName (this w) modelName = Some (VObj op) →
  op !! "inq" = Some (VArr keys) →
  ∃ w', all modelName query options w
        = (Resolved (omap (found_doc (idName (this w) modelName) (srv w) n) keys), w')
        ∧ srv w' = srv w ∧ heap w' = heap w
        ∧ log w' = (log w ++ map (ReqGet n) keys)%list.
Proof.
  intros Hb Hq Hw Hop.
  destruct (all_mapper_bound modelName options keys w n Hb) as (w' & Hrun & Hfr).
  exists w'. split; [|done].
  unfold all. rewrite Hq, getKeysFromWhere_object. unfold keysFromFilter.
  rewrite Hw, Hop. simpl.
  unfold filter_Boolean, then_. rewrite Hrun. simpl.
  by rewrite found_docs_truthy.
Qed.

(** ** Deleting documents *)

Lemma lookup_doc_remove n i s : lookup_doc (remove_doc n i s) n (VStr i) = None.
Proof.
  unfold lookup_doc, remove_doc. simpl. rewrite lookup_alter_eq.
  destruct (dbs s !! n) as [docs|]; [|done].
  simpl. by rewrite lookup_delete_eq.
Qed.

Lemma destroyAsync_current h i d w :
  lookup_doc (srv w) (h_db h) (VStr i) = Some d →
  destroyAsync h (VStr i) (rev_token (sd_rev d)) w
  = (Resolved (receipt i (N.succ (sd_rev d))),
     set_srv (remove_doc (h_db h) i (srv w))
             (send (ReqDestroy (h_db h) (VStr i) (rev_token (sd_rev d))) w)).
Proof. intros H. unfold destroyAsync. by rewrite H, rev_matches_token. Qed.

Lemma destroyById_bound w n modelName id options :
  bound_db w = Some n →
  destroyById modelName id options w = destroyed n id w.
Proof.
  intros Hb. destruct (connect_bound _ _ Hb) as (h & Hc & <- & Ha).
  destruct (attach_frame w) as (Hh & Hs & Hl & _).
  unfold destroyById, let_promise, destroyed. rewrite Hc.
  unfold then_ at 1 2, settled.
  rewrite handler_getAsync, getAsync_spec, Hs.
  unfold raw_doc. destruct id as [| | | |i| | |]; try done.
  destruct (lookup_doc (srv w) (h_db h) (VStr i)) as [d|] eqn:E; [|done].
  simpl. unfold handler, then_, handler. simpl.
  rewrite stored_doc_id, stored_doc_rev. simpl.
  rewrite (destroyAsync_current _ _ d) by (simpl; by rewrite Hs).
  unfold sent, send, set_srv. simpl. rewrite Hs.
  by rewrite <- app_assoc.
Qed.

(** C3 (as amended): on a connector bound to a database [destroyById] is
    either fulfilled or rejected, and [destroy] is fulfilled with [{count: 1}]
    in the first case and with [{count: 0}] in the second, whatever the reason
    of the rejection; two successive [destroy] calls on an id that has a
    document report [{count: 1}] then [{count: 0}], the second [destroyById]
    being rejected with [NotFound]. *)
Theorem destroy_counts (w : world) (n modelName : string) (id : value)
    (options : option loc) :
  bound_db w = Some n →
  (∃ r w', destroyById modelName id options w = (r, w')
           ∧ match r with
             | Resolved _ => destroy modelName id options w = (Resolved (count_info 1), w')
             | Rejected _ => destroy modelName id options w = (Resolved (count_info 0), w')
             | Thrown _ => False
             end)
  ∧ (∀ d, lookup_doc (srv w) n id = Some d →
          ∃ w1 w2,
            destroy modelName id options w = (Resolved (count_info 1), w1)
            ∧ lookup_doc (srv w1) n id = None
            ∧ destroyById modelName id options w1 = (Rejected NotFound, w2)
            ∧ destroy modelName id options w1 = (Resolved (count_info 0), w2)).
Proof.
  intros Hb. split.
  - unfold destroy, catchReturn, return_, then_.
    rewrite (destroyById_bound _ _ _ _ _ Hb). unfold destroyed.
    destruct id; try by eexists _, _.
    destruct (lookup_doc _ _ _); by eexists _, _.
  - intros d Hd.
    assert (∃ i, id = VStr i) as [i ->] by (destruct id; by eauto).
    pose proof (destroyById_bound _ _ modelName (VStr i) options Hb) as H1.
    unfold destroyed in H1. rewrite Hd in H1.
    set (w1 := set_srv _ _) in H1.
    assert (Hb1 : bound_db w1 = Some n) by by apply bound_db_attach.
    pose proof (destroyById_bound _ _ modelName (VStr i) options Hb1) as H2.
    unfold destroyed in H2.
    assert (Hgone : lookup_doc (srv w1) n (VStr i) = None) by apply lookup_doc_remove.
    rewrite Hgone in H2.
    exists w1, (send (ReqGet n (VStr i)) (attach w1)).
    unfold destroy, catchReturn, return_, then_. by rewrite H1, H2.
Qed.

(** ** The caller's objects *)

Lemma keeps_heap_resolve {A} (a : A) : keeps_heap (resolve a).
Proof. done. Qed.

Lemma keeps_heap_reject {A} e : keeps_heap (@reject A e).
Proof. done. Qed.

Lemma keeps_heap_settled {A} (r : outcome A) : keeps_heap (settled r).
Proof. done. Qed.

Lemma keeps_heap_handler {A} (m : M A) : keeps_heap m → keeps_heap (handler m).
Proof.
  intros Hm w. unfold handler. specialize (Hm w).
  by destruct (m w) as [[a|e|e] w'].
Qed.

Lemma keeps_heap_catchReturn {A} (m : M A) a : keeps_heap m → keeps_heap (catchReturn m a).
Proof.
  intros Hm w. unfold catchReturn. specialize (Hm w).
  by destruct (m w) as [[a'|e|e] w'].
Qed.

Section KeepsHeap.
Context {A B : Type}.

Lemma keeps_heap_then (p : M A) (f : A → M B) :
  keeps_heap p → (∀ a, keeps_heap (f a)) → keeps_heap (then_ p f).
Proof.
  intros Hp Hf w. unfold then_. specialize (Hp w).
  destruct (p w) as [[a|e|e] w']; simpl in *; try done.
  rewrite <- Hp. by apply keeps_heap_handler.
Qed.

Lemma keeps_heap_then2 (p : M A) (f : A → M B) (g : error → M B) :
  keeps_heap p → (∀ a, keeps_heap (f a)) → (∀ e, keeps_heap (g e)) →
  keeps_heap (then2 p f g).
Proof.
  intros Hp Hf Hg w. unfold then2. specialize (Hp w).
  destruct (p w) as [[a|e|e] w']; simpl in *; try done;
    rewrite <- Hp; by apply keeps_heap_handler.
Qed.

Lemma keeps_heap_let_promise (m : M A) (k : M A → M B) :
  keeps_heap m → (∀ r, keeps_heap (k (settled r))) → keeps_heap (let_promise m k).
Proof.
  intros Hm Hk w. unfold let_promise. specialize (Hm w).
  destruct (m w) as [[a|e|e] w']; simpl in *; try done; rewrite <- Hm; apply Hk.
Qed.

Lemma keeps_heap_promise_map (f : A → M B) l :
  (∀ a, keeps_heap (f a)) → keeps_heap (promise_map f l).
Proof.
  intros Hf. induction l as [|x l IH]; intros w; [done|].
  simpl. pose proof (keeps_heap_handler _ (Hf x) w) as H1.
  destruct (handler (f x) w) as [r w1]. specialize (IH w1).
  destruct (promise_map f l w1) as [rs w2]. simpl in *. congruence.
Qed.

End KeepsHeap.

Lemma keeps_heap_return_ {A B} (p : M A) (b : B) : keeps_heap p → keeps_heap (return_ p b).
Proof. intros Hp. apply keeps_heap_then; [done|]. intros _. apply keeps_heap_resolve. Qed.

Lemma keeps_heap_connect : keeps_heap connect.
Proof. intros w. apply attach_frame. Qed.

Lemma keeps_heap_getAsync h id : keeps_heap (getAsync h id).
Proof. intros w. by rewrite getAsync_spec. Qed.

Lemma heap_on_server {A} (f : server → outcome A * server) w :
  heap (on_server f w).2 = heap w.
Proof. unfold on_server. by destruct (f (srv w)). Qed.

Lemma keeps_heap_insertAsync h doc opts : keeps_heap (insertAsync h doc opts).
Proof.
  intros w. unfold insertAsync.
  destruct doc as [| | | | | | |body]; try done.
  destruct (truthy _).
  - destruct (default _ _); try done. by rewrite heap_on_server.
  - destruct (body !! "_id") as [[]|]; try done; by rewrite heap_on_server.
Qed.

Lemma keeps_heap_destroyAsync h id rev : keeps_heap (destroyAsync h id rev).
Proof.
  intros w. unfold destroyAsync. destruct id; try done.
  destruct (lookup_doc _ _ _); [|done]. by destruct (rev_matches _ _).
Qed.

#[export] Hint Resolve keeps_heap_resolve keeps_heap_reject keeps_heap_settled
  keeps_heap_handler keeps_heap_catchReturn keeps_heap_then keeps_heap_then2
  keeps_heap_let_promise keeps_heap_promise_map keeps_heap_return_
  keeps_heap_connect keeps_heap_getAsync keeps_heap_insertAsync
  keeps_heap_destroyAsync : frame.

Lemma keeps_heap_findById modelName id options : keeps_heap (findById modelName id options).
Proof.
  unfold findById. apply keeps_heap_then; [auto with frame|].
  intros data w. by destruct (is_nullish data).
Qed.

Lemma keeps_heap_create modelName data options : keeps_heap (create modelName data options).
Proof. intros w. unfold create. apply keeps_heap_then; auto with frame. Qed.

#[export] Hint Resolve keeps_heap_findById keeps_heap_create : frame.

(** The part of [save] the caller can see: [options.docName = id]. *)
Lemma save_heap modelName data options w :
  heap (save modelName data options w).2
  = match options with
    | Some o =>
        let id := getIdValue (this w) modelName (VObj (deref w data)) in
        if is_nullish id then heap w
        else <[ o := <[ "docName" := id ]> (deref w o) ]> (heap w)
    | None => heap w
    end.
Proof.
  unfold save. destruct options as [o|].
  - rewrite keeps_heap_then by auto with frame.
    by destruct (is_nullish _).
  - by rewrite keeps_heap_then by auto with frame.
Qed.

Lemma insertAsync_log h doc opts w :
  log (insertAsync h doc opts w).2 = (log w ++ [ReqInsert (h_db h) doc opts])%list
  ∧ this (insertAsync h doc opts w).2 = this w.
Proof.
  assert (Hon : ∀ (f : server → outcome value * server) w0,
            log (on_server f w0).2 = log w0 ∧ this (on_server f w0).2 = this w0).
  { intros f w0. unfold on_server. by destruct (f (srv w0)). }
  unfold insertAsync.
  destruct doc as [| | | | | | |body]; try done.
  destruct (truthy _).
  - destruct (default _ _); try done.
    by rewrite (proj1 (Hon _ _)), (proj2 (Hon _ _)).
  - destruct (body !! "_id") as [[]|]; try done;
      by rewrite (proj1 (Hon _ _)), (proj2 (Hon _ _)).
Qed.

Lemma save_connected w h modelName data options :
  _connection (this w) = Some h →
  save modelName data options w
  = handler (insertAsync h (VObj (deref (save_effect modelName data options w) data))
                         (Some (save_options modelName data options w)))
            (save_effect modelName data options w).
Proof.
  intros H. unfold save, save_options, save_effect.
  destruct options as [o|]; simpl.
  - set (w1 := if negb _ then _ else _).
    assert (H1 : _connection (this w1) = Some h).
    { unfold w1. by destruct (negb _). }
    unfold then_. by rewrite (connect_connected _ _ H1).
  - unfold then_. by rewrite (connect_connected _ _ H).
Qed.

Lemma save_effect_rev modelName data options w v :
  data < length (heap w) →
  deref w data !! "_rev" = Some v →
  deref (save_effect modelName data options w) data !! "_rev" = Some v.
Proof.
  intros Hlen Hrev. unfold save_effect.
  destruct options as [o|]; [|done].
  simpl. destruct (negb _); [|done].
  unfold deref, set_prop. simpl.
  destruct (decide (o = data)) as [->|Hne].
  - rewrite list_lookup_insert_eq by done. simpl.
    by rewrite lookup_insert_ne.
  - by rewrite list_lookup_insert_ne.
Qed.

Lemma replaceById_found w n modelName id data options res :
  bound_db w = Some n →
  found_doc (idName (this w) modelName) (srv w) n id = Some res →
  replaceById modelName id data options w
  = let '(r, w4) :=
      handler (save modelName data options)
              (set_prop data "_rev" (prop res "_rev") (send (ReqGet n id) (attach w))) in
    match r with
    | Resolved _ => handler (findById modelName id options) w4
    | Rejected e => (Rejected e, w4)
    | Thrown e => (Thrown e, w4)
    end.
Proof.
  intros Hb Hf. unfold replaceById, then_ at 1 2.
  by rewrite (findById_bound _ _ _ _ _ Hb), Hf.
Qed.

Lemma deref_heap w w' l : heap w' = heap w → deref w' l = deref w l.
Proof. unfold deref. by intros ->. Qed.

Lemma handler_snd {A} (m : M A) w : (handler m w).2 = (m w).2.
Proof. unfold handler. by destruct (m w) as [[a|e|e] w']. Qed.

Lemma replaceById_writes_rev w n modelName id data options res :
  bound_db w = Some n →
  found_doc (idName (this w) modelName) (srv w) n id = Some res →
  data < length (heap w) →
  let w' := (replaceById modelName id data options w).2 in
  deref w' data !! "_rev" = Some (prop res "_rev")
  ∧ ∃ doc opts rest,
      log w' = (log w ++ ReqGet n id :: ReqInsert n (VObj doc) opts :: rest)%list
      ∧ doc !! "_rev" = Some (prop res "_rev").
Proof.
  intros Hb Hf Hlen w'. subst w'.
  destruct (connect_bound _ _ Hb) as (h & _ & <- & Ha).
  destruct (attach_frame w) as (Hh & _ & Hl & _).
  rewrite (replaceById_found _ _ _ _ _ _ _ Hb Hf).
  set (w2 := set_prop data "_rev" (prop res "_rev") _).
  assert (H2 : _connection (this w2) = Some h) by done.
  assert (Hrev2 : deref w2 data !! "_rev" = Some (prop res "_rev")).
  { unfold w2, deref, set_prop. simpl.
    rewrite list_lookup_insert_eq by (by rewrite Hh). simpl.
    by rewrite lookup_insert_eq. }
  assert (Hlen2 : data < length (heap w2)).
  { unfold w2, set_prop. simpl. by rewrite length_insert, Hh. }
  pose proof (save_effect_rev modelName data options w2 _ Hlen2 Hrev2) as Hrev3.
  set (w3 := save_effect modelName data options w2) in *.
  set (doc := deref w3 data) in *.
  set (opts := Some (save_options modelName data options w2)).
  assert (H3 : this w3 = this w2).
  { unfold w3, save_effect. destruct options; [|done]. simpl. by destruct (negb _). }
  assert (Hl3 : log w3 = (log w ++ [ReqGet (h_db h) id])%list).
  { unfold w3, save_effect. destruct options; simpl; [destruct (negb _)|]; simpl;
      by rewrite Hl. }
  destruct (handler (save modelName data options) w2) as [r w4] eqn:E.
  assert (E4 : w4 = (insertAsync h (VObj doc) opts w3).2).
  { change w4 with (r, w4).2. rewrite <- E, handler_snd.
    by rewrite (save_connected _ _ _ _ _ H2), handler_snd. }
  assert (Hh4 : heap w4 = heap w3) by (rewrite E4; apply keeps_heap_insertAsync).
  destruct (insertAsync_log h (VObj doc) opts w3) as [Hl4 Ht4].
  rewrite <- E4 in Hl4, Ht4.
  assert (Hlog4 : log w4
            = (log w ++ ReqGet (h_db h) id :: ReqInsert (h_db h) (VObj doc) opts :: [])%list).
  { rewrite Hl4, Hl3. by rewrite <- app_assoc. }
  destruct r as [a|e|e].
  - assert (H4 : _connection (this w4) = Some h) by by rewrite Ht4, H3.
    rewrite handler_snd, (findById_connected _ _ _ _ _ H4). split.
    + by rewrite (deref_heap w3).
    + exists doc, opts, [ReqGet (h_db h) id]. split; [|done].
      simpl. rewrite Hlog4. by rewrite <- app_assoc.
  - split; [by rewrite (deref_heap w3)|]. by exists doc, opts, [].
  - split; [by rewrite (deref_heap w3)|]. by exists doc, opts, [].
Qed.

(** C10: what the hooks do to the objects the caller hands in.  [create]
    never changes any of them (the [_id] goes into a copy of the record);
    [save], given an options object and a record whose identifier is present,
    sets [docName] on that very options object to the identifier, and
    without options or without identifier changes nothing; and
    [replaceById], once it has read the stored document, writes that
    document's [_rev] into the caller's record, sends the record with it to
    the store, and leaves it there. *)
Theorem caller_objects_frame (w : world) (modelName : string) (data : loc) :
  (∀ options, heap (create modelName data options w).2 = heap w)
  ∧ (∀ o, let id := getIdValue (this w) modelName (VObj (deref w data)) in
          is_nullish id = false →
          heap (save modelName data (Some o) w).2
          = <[ o := <[ "docName" := id ]> (deref w o) ]> (heap w))
  ∧ (∀ options,
       options = None
       ∨ is_nullish (getIdValue (this w) modelName (VObj (deref w data))) = true →
       heap (save modelName data options w).2 = heap w)
  ∧ (∀ options id res n,
       bound_db w = Some n →
       found_doc (idName (this w) modelName) (srv w) n id = Some res →
       data < length (heap w) →
       let w' := (replaceById modelName id data options w).2 in
       deref w' data !! "_rev" = Some (prop res "_rev")
       ∧ ∃ doc opts rest,
           log w' = (log w ++ ReqGet n id :: ReqInsert n (VObj doc) opts :: rest)%list
           ∧ doc !! "_rev" = Some (prop res "_rev")).
Proof.
  split; [|split; [|split]].
  - intros options. apply keeps_heap_create.
  - intros o id Hid. subst id. rewrite save_heap. cbv zeta. by rewrite Hid.
  - intros options Hnone. rewrite save_heap.
    destruct options as [o|]; [|done].
    destruct Hnone as [|Hid]; [done|]. cbv zeta. by rewrite Hid.
  - intros options id res n. apply replaceById_writes_rev.
Qed.

(** ** Creating documents *)

Lemma lookup_doc_write n i d s docs :
  dbs s !! n = Some docs → lookup_doc (write_doc n i d s) n (VStr i) = Some d.
Proof.
  intros H. unfold lookup_doc, write_doc. simpl.
  rewrite lookup_alter_eq, H. simpl. by rewrite lookup_insert_eq.
Qed.

Lemma put_doc_resolved n i body s v s' :
  put_doc n i body s = (Resolved v, s') →
  ∃ d, lookup_doc s' n (VStr i) = Some d ∧ sd_body d = strip body
       ∧ v = receipt i (sd_rev d).
Proof.
  unfold put_doc. destruct (dbs s !! n) as [docs|] eqn:En; [|done].
  destruct (docs !! i) as [d|].
  - destruct (rev_matches _ _); [|done]. intros [= <- <-].
    eexists. split; [by eapply lookup_doc_write|done].
  - destruct (body !! "_rev"); [done|]. intros [= <- <-].
    eexists. split; [by eapply lookup_doc_write|done].
Qed.

Lemma strip_insert_id (o : obj) v : strip (<[ "_id" := v ]> o) = strip o.
Proof.
  unfold strip. rewrite (delete_insert_ne _ "_rev" "_id") by done.
  by rewrite delete_insert_eq.
Qed.

Lemma put_doc_settles n i body s : ∀ e, (put_doc n i body s).1 ≠ Thrown e.
Proof.
  intros e. unfold put_doc.
  destruct (dbs s !! n) as [docs|]; [|done].
  destruct (docs !! i) as [d|].
  - by destruct (rev_matches _ _).
  - by destruct (body !! "_rev").
Qed.

Lemma handler_insertAsync h doc opts w :
  handler (insertAsync h doc opts) w = insertAsync h doc opts w.
Proof.
  assert (Hon : ∀ n i body s0 w0,
            handler (on_server (λ s, put_doc n i body (s0 s))) w0
            = on_server (λ s, put_doc n i body (s0 s)) w0).
  { intros n i body s0 w0. unfold handler, on_server.
    pose proof (put_doc_settles n i body (s0 (srv w0))) as H.
    destruct (put_doc _ _ _ _) as [[a|e|e] s']; try done. by destruct (H e). }
  unfold insertAsync. destruct doc as [| | | | | | |body]; try done.
  unfold handler at 1.
  destruct (truthy _).
  - destruct (default _ _) as [| | | |i| | |]; try done.
    apply (Hon (h_db h) i body (λ s, s)).
  - destruct (body !! "_id") as [[| | | |i| | |]|]; try done.
    + apply (Hon (h_db h) i body (λ s, s)).
    + pose proof (put_doc_settles (h_db h) (uuid (srv w)) body (take_uuid (srv w))) as H.
      unfold on_server. simpl.
      destruct (put_doc _ _ _ _) as [[a|e|e] s']; try done. by destruct (H e).
Qed.

Lemma create_bound w n modelName data options :
  bound_db w = Some n →
  ∃ h, h_db h = n ∧
    create modelName data options w
    = then_ (insertAsync h
               (VObj (if negb (is_nullish (getIdValue (this w) modelName (VObj (deref w data))))
                      then <[ "_id" := getIdValue (this w) modelName (VObj (deref w data)) ]>
                             (deref w data)
                      else deref w data))
               (deref_opt w options))
            (λ data, resolve (prop data "id", prop data "rev")) (attach w).
Proof.
  intros Hb. destruct (connect_bound _ _ Hb) as (h & Hc & Hn & Ha).
  exists h. split; [done|].
  unfold create, then_ at 1 2. rewrite Hc.
  by rewrite handler_insertAsync.
Qed.

(** What a fulfilled insert without [docName] stored, and where. *)
Lemma insertAsync_post_resolved h body opts w v w' :
  truthy (default VUndef (opts ≫= (λ o : obj, o !! "docName"))) = false →
  insertAsync h (VObj body) opts w = (Resolved v, w') →
  ∃ i d, lookup_doc (srv w') (h_db h) (VStr i) = Some d
         ∧ sd_body d = strip body ∧ v = receipt i (sd_rev d)
         ∧ match body !! "_id" with
           | Some x => x = VStr i
           | None => i = uuid (srv w)
           end.
Proof.
  intros Hopt. unfold insertAsync. rewrite Hopt.
  destruct (body !! "_id") as [[| | | |i| | |]|]; try done.
  - unfold on_server. simpl.
    destruct (put_doc _ _ _ _) as [r s'] eqn:E. intros [= -> <-].
    destruct (put_doc_resolved _ _ _ _ _ _ E) as (d & ? & ? & ?).
    by exists i, d.
  - unfold on_server. simpl.
    destruct (put_doc _ _ _ _) as [r s'] eqn:E. intros [= -> <-].
    destruct (put_doc_resolved _ _ _ _ _ _ E) as (d & ? & ? & ?).
    by exists (uuid (srv w)), d.
Qed.

Lemma receipt_id i r : prop (receipt i r) "id" = VStr i.
Proof. done. Qed.

Lemma receipt_rev i r : prop (receipt i r) "rev" = rev_token r.
Proof. done. Qed.

(** C5 (as amended): on a connector bound to a database, [create] sends the
    store one document and never touches the record object.  When the record's
    identifier is present the document is a copy of the record with that
    value as [_id], and on success (no [docName] option given) the document is
    stored under exactly that id.  When it is absent the record goes out as it
    is; the store assigns the id and [create] returns it in [[id, rev]], while
    the record still has no identifier: reflecting it is left to the caller. *)
Theorem create_document_identity (w : world) (n modelName : string) (data : loc)
    (options : option loc) :
  bound_db w = Some n →
  let record := deref w data in
  let id := getIdValue (this w) modelName (VObj record) in
  ∃ r w', create modelName data options w = (r, w')
    ∧ (∀ e, r ≠ Thrown e)
    ∧ heap w' = heap w
    ∧ log w' = (log w ++ [ReqInsert n
                            (VObj (if is_nullish id then record
                                   else <[ "_id" := id ]> record))
                            (deref_opt w options)])%list
    ∧ (∀ sid srev,
         r = Resolved (sid, srev) →
         truthy (default VUndef (deref_opt w options ≫= (λ o : obj, o !! "docName"))) = false →
         ∃ i d, sid = VStr i ∧ lookup_doc (srv w') n sid = Some d
                ∧ sd_body d = strip record ∧ srev = rev_token (sd_rev d)
                ∧ (is_nullish id = false → id = sid)
                ∧ (is_nullish id = true → record !! "_id" = None → i = uuid (srv w))).
Proof.
  intros Hb record id.
  destruct (create_bound _ _ modelName data options Hb) as (h & <- & Hc).
  destruct (attach_frame w) as (Hh & Hs & Hl & _).
  fold record id in Hc. rewrite Hc. clear Hc.
  set (doc := if negb (is_nullish id) then _ else _).
  assert (Hdoc : doc = if is_nullish id then record else <[ "_id" := id ]> record).
  { unfold doc. by destruct (is_nullish id). }
  pose proof (handler_insertAsync h (VObj doc) (deref_opt w options) (attach w)) as Hnt.
  pose proof (keeps_heap_insertAsync h (VObj doc) (deref_opt w options) (attach w)) as Hh1.
  destruct (insertAsync_log h (VObj doc) (deref_opt w options) (attach w)) as [Hl1 _].
  unfold then_.
  destruct (insertAsync h (VObj doc) (deref_opt w options) (attach w)) as [r0 w1] eqn:E.
  simpl in Hh1, Hl1.
  destruct r0 as [v|e|e].
  - eexists _, w1. split; [done|].
    split; [done|]. split; [by rewrite Hh1|].
    split; [by rewrite Hl1, Hl, Hdoc|].
    intros sid srev [= <- <-] Hopt.
    destruct (insertAsync_post_resolved _ _ _ _ _ _ Hopt E) as (i & d & Hd & Hbody & -> & Hid).
    exists i, d. rewrite receipt_id, receipt_rev.
    split; [done|]. split; [done|].
    split; [rewrite Hbody, Hdoc; destruct (is_nullish id); [done|apply strip_insert_id]|].
    split; [done|]. rewrite Hdoc in Hid. split.
    + intros Hn. rewrite Hn in Hid. by rewrite lookup_insert_eq in Hid.
    + intros Hn Hrec. rewrite Hn, Hrec, Hs in Hid. done.
  - eexists _, w1. split; [done|].
    split; [done|]. split; [by rewrite Hh1|].
    split; [by rewrite Hl1, Hl, Hdoc|]. done.
  - unfold handler in Hnt. by rewrite E in Hnt.
Qed.

(** ** Synchronizing design documents *)

Lemma design_id_inj a b : design_id a = design_id b → a = b.
Proof. unfold design_id. intros H. cbv in H. by injection H. Qed.

Lemma put_doc_dbs n i body s :
  dbs (put_doc n i body s).2
  = match dbs s !! n with
    | Some docs =>
        match put_slot body (docs !! i) with
        | Some d => <[ n := <[ i := d ]> docs ]> (dbs s)
        | None => dbs s
        end
    | None => dbs s
    end.
Proof.
  assert (Hw : ∀ docs d, dbs s !! n = Some docs →
             dbs (write_doc n i d s) = <[ n := <[ i := d ]> docs ]> (dbs s)).
  { intros docs d H. unfold write_doc. simpl. apply map_eq. intros k.
    rewrite lookup_alter, lookup_insert. case_decide; subst; [by rewrite H|done]. }
  unfold put_doc, put_slot.
  destruct (dbs s !! n) as [docs|] eqn:En; [|done].
  destruct (docs !! i) as [d|] eqn:Ei.
  - destruct (rev_matches _ _); simpl; [by apply Hw|].
    apply map_eq. intros k. rewrite lookup_insert. case_decide; subst; [|done].
    rewrite En. f_equal. apply map_eq. intros j.
    rewrite lookup_insert. case_decide; by subst.
  - destruct (body !! "_rev"); simpl; [done|by apply Hw].
Qed.

Lemma put_doc_lookup_same n i body s :
  lookup_doc (put_doc n i body s).2 n (VStr i)
  = dbs s !! n ≫= (λ docs, put_slot body (docs !! i)).
Proof.
  unfold lookup_doc. rewrite put_doc_dbs.
  destruct (dbs s !! n) as [docs|] eqn:En; simpl; [|by rewrite En].
  destruct (put_slot body (docs !! i)) as [d|] eqn:Ep.
  - rewrite lookup_insert_eq. simpl. by rewrite lookup_insert_eq.
  - rewrite En. simpl. unfold put_slot in Ep.
    destruct (docs !! i) as [d|]; [by destruct (rev_matches _ _)|done].
Qed.

Lemma put_doc_lookup_other n i body s n' i' :
  (n', i') ≠ (n, i) →
  lookup_doc (put_doc n i body s).2 n' (VStr i') = lookup_doc s n' (VStr i').
Proof.
  intros Hne. unfold lookup_doc. rewrite put_doc_dbs.
  destruct (dbs s !! n) as [docs|] eqn:En; [|done].
  destruct (put_slot body (docs !! i)) as [d|]; [|done].
  rewrite lookup_insert. case_decide; [subst n'|done].
  rewrite En. simpl. rewrite lookup_insert_ne; [done|congruence].
Qed.

Lemma put_doc_exists n i body s n' :
  dbs (put_doc n i body s).2 !! n' = None ↔ dbs s !! n' = None.
Proof.
  rewrite put_doc_dbs.
  destruct (dbs s !! n) as [docs|] eqn:En; [|done].
  destruct (put_slot body (docs !! i)) as [d|]; [|done].
  rewrite lookup_insert. case_decide; [subst n'|done].
  by rewrite En.
Qed.

Lemma design_id_truthy name : truthy (VStr (design_id name)) = true.
Proof. by cbv. Qed.

Lemma insertAsync_docName h body id w :
  truthy (VStr id) = true →
  srv (insertAsync h (VObj body) (Some {[ "docName" := VStr id ]}) w).2
  = (put_doc (h_db h) id body (srv w)).2
  ∧ this (insertAsync h (VObj body) (Some {[ "docName" := VStr id ]}) w).2 = this w.
Proof.
  intros Ht. unfold insertAsync. simpl (default _ _).
  rewrite lookup_singleton_eq. simpl (default _ _). rewrite Ht.
  unfold on_server. simpl. by destruct (put_doc _ _ _ _).
Qed.

Lemma then_resolved {A B} (p : M A) (f : A → M B) w a w' :
  p w = (Resolved a, w') → then_ p f w = handler (f a) w'.
Proof. intros H. unfold then_. by rewrite H. Qed.

Lemma then_rejected {A B} (p : M A) (f : A → M B) w e w' :
  p w = (Rejected e, w') → then_ p f w = (Rejected e, w').
Proof. intros H. unfold then_. by rewrite H. Qed.

Lemma then_settled {A B} (a : A) (f : A → M B) w :
  then_ (settled (Resolved a)) f w = handler (f a) w.
Proof. done. Qed.

Lemma saveDesignDoc_effect h dd name w :
  srv (saveDesignDoc (settled (Resolved h)) dd name w).2
  = design_sync (h_db h) dd (srv w) name
  ∧ this (saveDesignDoc (settled (Resolved h)) dd name w).2 = this w.
Proof.
  unfold saveDesignDoc, then2, design_sync.
  rewrite then_settled, handler_getAsync, getAsync_spec.
  fold (design_id name). unfold raw_doc.
  destruct (lookup_doc (srv w) (h_db h) (VStr (design_id name))) as [d|];
    simpl; rewrite handler_snd, then_settled, handler_snd;
    (edestruct insertAsync_docName as [-> ->]; [apply design_id_truthy|done]).
Qed.

Lemma promise_map_effect {A B} (f : A → M B) (g : server → A → server) l :
  (∀ a w, srv (f a w).2 = g (srv w) a ∧ this (f a w).2 = this w) →
  ∀ w, srv (promise_map f l w).2 = foldl g (srv w) l
       ∧ this (promise_map f l w).2 = this w
       ∧ ∀ e, (promise_map f l w).1 ≠ Thrown e.
Proof.
  intros Hf. induction l as [|x l IH]; intros w; [done|].
  simpl. destruct (Hf x w) as [Hs Ht].
  rewrite <- (handler_snd (f x) w) in Hs, Ht.
  destruct (handler (f x) w) as [r w1]. simpl in Hs, Ht.
  destruct (IH w1) as (Hs' & Ht' & _).
  destruct (promise_map f l w1) as [rs w2]. simpl in *.
  rewrite Hs', Ht', Hs, Ht. repeat split.
  intros e. by destruct r, rs.
Qed.

Lemma in_db_same s s' n slot :
  (dbs s' !! n = None ↔ dbs s !! n = None) → in_db s' n slot = in_db s n slot.
Proof.
  unfold in_db. intros H.
  destruct (dbs s !! n) eqn:E, (dbs s' !! n) eqn:E'; try done.
  - by pose proof (proj1 H eq_refl).
  - by pose proof (proj2 H eq_refl).
Qed.

Section DesignSync.
Variable n : string.
Variable dd : gmap string obj.

Lemma design_sync_exists s name n' :
  dbs (design_sync n dd s name) !! n' = None ↔ dbs s !! n' = None.
Proof. apply put_doc_exists. Qed.

Lemma design_sync_lookup_same s name :
  lookup_doc (design_sync n dd s name) n (VStr (design_id name))
  = in_db s n (synced_slot (dd !!! name) (design_id name)
                           (lookup_doc s n (VStr (design_id name)))).
Proof.
  unfold design_sync. rewrite put_doc_lookup_same.
  unfold in_db, lookup_doc, synced_slot.
  by destruct (dbs s !! n).
Qed.

Lemma design_sync_lookup_other s name n' i' :
  (n', i') ≠ (n, design_id name) →
  lookup_doc (design_sync n dd s name) n' (VStr i') = lookup_doc s n' (VStr i').
Proof. apply put_doc_lookup_other. Qed.

Lemma fold_sync_exists names : ∀ s n',
  dbs (foldl (design_sync n dd) s names) !! n' = None ↔ dbs s !! n' = None.
Proof.
  induction names as [|x names IH]; intros s n'; [done|].
  simpl. rewrite IH. apply design_sync_exists.
Qed.

Lemma fold_sync_other names : ∀ s n' i',
  n' ≠ n ∨ i' ∉ design_id <$> names →
  lookup_doc (foldl (design_sync n dd) s names) n' (VStr i') = lookup_doc s n' (VStr i').
Proof.
  induction names as [|x names IH]; intros s n' i' Hne; [done|].
  simpl. rewrite IH.
  - apply design_sync_lookup_other. intros [= -> ->].
    destruct Hne as [Hne|Hne]; [done|]. apply Hne. simpl. left.
  - destruct Hne as [Hne|Hne]; [by left|right].
    intros Hin. apply Hne. simpl. by right.
Qed.

Lemma fold_sync_design names : ∀ s name,
  NoDup names → name ∈ names →
  lookup_doc (foldl (design_sync n dd) s names) n (VStr (design_id name))
  = in_db s n (synced_slot (dd !!! name) (design_id name)
                           (lookup_doc s n (VStr (design_id name)))).
Proof.
  induction names as [|x names IH]; intros s name Hnd Hin.
  { by apply elem_of_nil in Hin. }
  apply NoDup_cons in Hnd as [Hx Hnd]. simpl.
  destruct (decide (name = x)) as [->|Hne].
  - rewrite fold_sync_other; [apply design_sync_lookup_same|].
    right. intros (y & Hy & Hiny)%list_elem_of_fmap.
    apply design_id_inj in Hy. by subst.
  - apply elem_of_cons in Hin as [?|Hin]; [done|].
    rewrite (IH _ _ Hnd Hin).
    rewrite design_sync_lookup_other.
    + apply in_db_same, design_sync_exists.
    + intros Heq. apply (f_equal snd), design_id_inj in Heq. done.
Qed.
End DesignSync.

Lemma merged_rev_matches (def : obj) id d :
  def !! "_rev" = None →
  rev_matches ((def ∪ stored_doc id d) !! "_rev") (sd_rev d) = true.
Proof.
  intros H. rewrite lookup_union_r by done.
  rewrite stored_doc_rev. apply rev_matches_token.
Qed.

Lemma strip_merged (def : obj) id d :
  strip (def ∪ stored_doc id d) = strip (def ∪ sd_body d).
Proof. by rewrite !strip_union, strip_stored_doc. Qed.

(** With a definition that carries no [_rev], the sync of a slot always
    writes: the definition merged onto the stored fields. *)
Lemma synced_slot_merge (def : obj) id slot :
  def !! "_rev" = None →
  sd_body <$> synced_slot def id slot
  = Some (strip (def ∪ default ∅ (sd_body <$> slot))).
Proof.
  intros H. unfold synced_slot, put_slot, merged_body.
  destruct slot as [d|]; simpl.
  - rewrite merged_rev_matches by done. simpl. by rewrite strip_merged.
  - rewrite H. simpl. by rewrite (right_id_L ∅ (∪)).
Qed.

(** Syncing a slot twice gives the fields of syncing it once. *)
Lemma synced_slot_idemp (def : obj) id slot :
  sd_body <$> synced_slot def id (synced_slot def id slot)
  = sd_body <$> synced_slot def id slot.
Proof.
  assert (Hbody : ∀ b r, strip (def ∪ stored_doc id (SDoc r (strip (def ∪ b))))
                         = strip (def ∪ b)).
  { intros b r. rewrite strip_merged. simpl.
    rewrite !strip_union, !strip_idemp.
    by rewrite (assoc_L (∪)), (idemp_L (∪)). }
  unfold synced_slot at 2. unfold put_slot, merged_body.
  destruct slot as [d|].
  - destruct (rev_matches _ (sd_rev d)) eqn:E.
    + unfold synced_slot, put_slot, merged_body.
      rewrite Hbody, E. by case_match.
    + unfold synced_slot, put_slot, merged_body. by rewrite E.
  - destruct (def !! "_rev") as [v|] eqn:E.
    + unfold synced_slot, put_slot, merged_body. by rewrite E.
    + unfold synced_slot, put_slot, merged_body.
      specialize (Hbody ∅ 1%N). rewrite (right_id_L ∅ (∪)) in Hbody.
      rewrite Hbody, E. by case_match.
Qed.

Lemma fold_sync_idemp n dd names s n' id :
  NoDup names →
  stored_fields (foldl (design_sync n dd) (foldl (design_sync n dd) s names) names) n' id
  = stored_fields (foldl (design_sync n dd) s names) n' id.
Proof.
  intros Hnd. unfold stored_fields.
  destruct id as [| | | |i| | |]; try done.
  destruct (decide (n' = n ∧ i ∈ design_id <$> names)) as [[-> Hin]|Hno].
  - apply list_elem_of_fmap in Hin as (name & -> & Hin).
    rewrite !fold_sync_design by done.
    rewrite (in_db_same s) by apply fold_sync_exists.
    unfold in_db. destruct (dbs s !! n); [|done].
    apply synced_slot_idemp.
  - rewrite fold_sync_other; [done|].
    destruct (decide (n' = n)); [right|by left].
    intros Hin. by apply Hno.
Qed.

Lemma Object_keys_NoDup {A} (o : gmap string A) : NoDup (Object_keys o).
Proof. apply NoDup_fst_map_to_list. Qed.

Lemma Object_keys_elem {A} (o : gmap string A) k : k ∈ Object_keys o ↔ is_Some (o !! k).
Proof.
  unfold Object_keys. rewrite list_elem_of_fmap. split.
  - intros ([k' v] & -> & Hin). apply elem_of_map_to_list in Hin. by exists v.
  - intros [v Hv]. exists (k, v). split; [done|]. by apply elem_of_map_to_list.
Qed.

Lemma bound_db_this w w' : this w' = this w → bound_db w' = bound_db w.
Proof. unfold bound_db. by intros ->. Qed.

Lemma bound_db_attach_eq w : bound_db (attach w) = bound_db w.
Proof.
  destruct (bound_db w) as [n|] eqn:E; [by apply bound_db_attach|].
  unfold bound_db in E. destruct (_connection (this w)) eqn:Ec; [done|].
  unfold attach. rewrite (connect_unconfigured _ Ec E). simpl.
  unfold bound_db. by rewrite Ec.
Qed.

Lemma saveDesignDocs_bound w n dd :
  bound_db w = Some n → designDocs (settings (this w)) = Some dd →
  srv (saveDesignDocs w).2 = foldl (design_sync n dd) (srv w) (Object_keys dd)
  ∧ this (saveDesignDocs w).2 = this (attach w)
  ∧ ∀ e, (saveDesignDocs w).1 ≠ Thrown e.
Proof.
  intros Hb Hdd. destruct (connect_bound _ _ Hb) as (h & Hc & <- & Ha).
  destruct (attach_frame w) as (_ & Hs & _ & Hset & _).
  unfold saveDesignDocs, let_promise. rewrite Hc, Hset, Hdd, <- Hs.
  apply promise_map_effect. intros name w0. apply saveDesignDoc_effect.
Qed.

Lemma saveDesignDocs_stuck w :
  bound_db w = None ∨ designDocs (settings (this w)) = None →
  srv (saveDesignDocs w).2 = srv w ∧ this (saveDesignDocs w).2 = this (attach w).
Proof.
  intros Hstuck. destruct (attach_frame w) as (_ & Hs & _ & Hset & _).
  destruct (bound_db w) as [n|] eqn:Eb.
  - destruct Hstuck as [|Hdd]; [done|].
    destruct (connect_bound _ _ Eb) as (h & Hc & _).
    unfold saveDesignDocs, let_promise. by rewrite Hc, Hset, Hdd.
  - unfold bound_db in Eb. destruct (_connection (this w)) eqn:Ec; [done|].
    unfold saveDesignDocs, let_promise, attach.
    by rewrite (connect_unconfigured _ Ec Eb).
Qed.

(** C6: [saveDesignDocs] is idempotent on document fields and merges.  Run
    twice in a row, the second run leaves the fields of every stored document
    as the first run left them (only revisions move).  And from any state of
    the store, hence also after another writer has added fields, a run
    leaves under [_design/<name>] the configured definition merged onto the
    fields stored before: every field of the definition has the definition's
    value, every other stored field is kept. *)
Theorem saveDesignDocs_idempotent_merge (w : world) :
  let w1 := (saveDesignDocs w).2 in
  let w2 := (saveDesignDocs w1).2 in
  (∀ n id, stored_fields (srv w2) n id = stored_fields (srv w1) n id)
  ∧ (∀ n dd name def docs,
       bound_db w = Some n →
       designDocs (settings (this w)) = Some dd →
       dd !! name = Some def →
       def !! "_rev" = None →
       dbs (srv w) !! n = Some docs →
       let id := VStr (design_id name) in
       let old := default ∅ (stored_fields (srv w) n id) in
       ∃ fields,
         stored_fields (srv w1) n id = Some fields
         ∧ fields = strip (def ∪ old)
         ∧ (∀ k v, def !! k = Some v → k ≠ "_id" → fields !! k = Some v)
         ∧ (∀ k, def !! k = None → k ≠ "_id" → k ≠ "_rev" → fields !! k = old !! k)).
Proof.
  intros w1 w2. split.
  - intros n' id.
    destruct (attach_frame w) as (_ & _ & _ & Hset & _).
    destruct (bound_db w) as [n|] eqn:Eb.
    + destruct (designDocs (settings (this w))) as [dd|] eqn:Edd.
      * destruct (saveDesignDocs_bound _ _ _ Eb Edd) as (Hs1 & Ht1 & _).
        fold w1 in Hs1, Ht1.
        assert (Eb1 : bound_db w1 = Some n).
        { rewrite (bound_db_this _ _ Ht1). by apply bound_db_attach. }
        assert (Edd1 : designDocs (settings (this w1)) = Some dd).
        { by rewrite Ht1, Hset. }
        destruct (saveDesignDocs_bound _ _ _ Eb1 Edd1) as (Hs2 & _).
        fold w2 in Hs2. rewrite Hs2, Hs1.
        apply fold_sync_idemp, Object_keys_NoDup.
      * destruct (saveDesignDocs_stuck w) as [Hs1 Ht1]; [by right|].
        fold w1 in Hs1, Ht1.
        destruct (saveDesignDocs_stuck w1) as [Hs2 _].
        { right. by rewrite Ht1, Hset. }
        fold w2 in Hs2. by rewrite Hs2.
    + destruct (saveDesignDocs_stuck w) as [Hs1 Ht1]; [by left|].
      fold w1 in Hs1, Ht1.
      destruct (saveDesignDocs_stuck w1) as [Hs2 _].
      { left. rewrite (bound_db_this _ _ Ht1). by rewrite bound_db_attach_eq. }
      fold w2 in Hs2. by rewrite Hs2.
  - intros n dd name def docs Hb Hdd Hname Hrev Hdb id old.
    destruct (saveDesignDocs_bound _ _ _ Hb Hdd) as (Hs1 & _).
    fold w1 in Hs1.
    assert (Hf : stored_fields (srv w1) n id = Some (strip (def ∪ old))).
    { unfold stored_fields, id. rewrite Hs1.
      rewrite fold_sync_design;
        [|apply Object_keys_NoDup|apply Object_keys_elem; by eexists].
      unfold in_db. rewrite Hdb.
      rewrite (lookup_total_correct _ _ _ Hname).
      by apply synced_slot_merge. }
    exists (strip (def ∪ old)). repeat split; try done.
    + intros k v Hk Hid.
      assert (k ≠ "_rev") by congruence.
      rewrite strip_lookup by done. by apply lookup_union_Some_l.
    + intros k Hk Hid Hr.
      rewrite strip_lookup by done. by apply lookup_union_r.
Qed.

(** ** Creating and resetting the database *)

Lemma getDB_spec w k :
  _db (this w) = Some k →
  getDB w
  = (Resolved (match named (database (settings (this w))) with
               | Some n => match dbs (srv w) !! n with
                           | Some _ => db_info n
                           | None => VBool false
                           end
               | None => VBool false
               end),
     send (ReqDbGet (database (settings (this w)))) w).
Proof.
  intros Hdb. unfold getDB, catchReturn, db_call, db_getAsync. rewrite Hdb.
  destruct (named _) as [n|]; [|done].
  by destruct (dbs (srv w) !! n).
Qed.

Lemma wf_connection_db w h :
  wf_connection w → _connection (this w) = Some h → _db (this w) = Some (h_nano h).
Proof.
  unfold wf_connection. intros Hwf E. rewrite E in Hwf.
  by destruct Hwf as (_ & _ & _ & Hdb).
Qed.

Lemma db_name_database w n :
  named (database (settings (this w))) = Some n → db_name (this w) = Some n.
Proof. intros H. unfold db_name, or_else. by rewrite H. Qed.

Lemma db_name_db w n :
  named (database (settings (this w))) = None →
  named (db (settings (this w))) = Some n → db_name (this w) = Some n.
Proof. intros H1 H2. unfold db_name, or_else. by rewrite H1. Qed.

(** The world a lifecycle hook works in once it is connected. *)
Lemma lifecycle_connect w n :
  wf_connection w → db_name (this w) = Some n →
  ∃ h, connect w = (Resolved h, attach w) ∧ h_db h = n
       ∧ _connection (this (attach w)) = Some h
       ∧ _db (this (attach w)) = Some (h_nano h).
Proof.
  intros Hwf Hn.
  destruct (connect_bound _ _ (wf_connection_bound _ _ Hwf Hn)) as (h & Hc & Hh & Ha).
  exists h. repeat split; try done.
  by apply wf_connection_db; [apply wf_connection_attach|].
Qed.

(** C7 (the defect): with the database name supplied under [db] only,
    [connect] succeeds and binds the handle to that name, but the lifecycle
    hooks read [this.settings.database], which is still unset: the existence
    check and the create go out without any database name, are refused, and
    the configured database is neither checked, created nor destroyed. *)
Theorem lifecycle_ignores_db_key (w : world) (n : string) (models : list string) :
  wf_connection w →
  named (database (settings (this w))) = None →
  named (db (settings (this w))) = Some n →
  designDocs (settings (this w)) = None →
  let unset := database (settings (this w)) in
  (∃ h, connect w = (Resolved h, attach w) ∧ h_db h = n)
  ∧ (autoupdate models w).1 = Rejected BadRequest
  ∧ srv (autoupdate models w).2 = srv w
  ∧ log (autoupdate models w).2 = (log w ++ [ReqDbGet unset; ReqDbCreate unset])%list
  ∧ (automigrate models w).1 = Rejected BadRequest
  ∧ srv (automigrate models w).2 = srv w
  ∧ log (automigrate models w).2 = (log w ++ [ReqDbGet unset; ReqDbCreate unset])%list.
Proof.
  intros Hwf Hdatabase Hdb Hdd unset.
  destruct (lifecycle_connect _ _ Hwf (db_name_db _ _ Hdatabase Hdb))
    as (h & Hc & Hh & Ha & Hd).
  fold unset in Hdatabase.
  destruct (attach_frame w) as (_ & Hs & Hl & Hset & _).
  assert (Hget : getDB (attach w)
                 = (Resolved (VBool false), send (ReqDbGet unset) (attach w))).
  { rewrite (getDB_spec _ _ Hd), Hset. fold unset. by rewrite Hdatabase. }
  assert (Hcreate : db_call (db_createAsync unset) (send (ReqDbGet unset) (attach w))
                    = (Rejected BadRequest,
                       sent [ReqDbGet unset; ReqDbCreate unset] (attach w))).
  { unfold db_call, db_createAsync. simpl. rewrite Hd, Hdatabase.
    unfold sent, send. simpl. by rewrite <- app_assoc. }
  assert (Hget' : then_ (settled (Resolved h)) (λ _, getDB) (attach w)
                  = (Resolved (VBool false), send (ReqDbGet unset) (attach w))).
  { rewrite then_settled. unfold handler. by rewrite Hget. }
  assert (Hau : autoupdate models w
                = (Rejected BadRequest, sent [ReqDbGet unset; ReqDbCreate unset] (attach w))).
  { unfold autoupdate, let_promise. rewrite Hc.
    unfold has_designDocs. rewrite Hset, Hdd. simpl negb. cbv iota.
    rewrite (then_resolved _ _ _ _ _ Hget').
    unfold handler. simpl truthy. cbv iota.
    change (this (send (ReqDbGet unset) (attach w))) with (this (attach w)).
    rewrite Hset. fold unset.
    by rewrite (then_rejected _ _ _ _ _ Hcreate). }
  assert (Ham : automigrate models w
                = (Rejected BadRequest, sent [ReqDbGet unset; ReqDbCreate unset] (attach w))).
  { unfold automigrate. unfold has_designDocs. rewrite Hdd. simpl negb. cbv iota.
    assert (H1 : then_ connect (λ _, getDB) w
                 = (Resolved (VBool false), send (ReqDbGet unset) (attach w))).
    { rewrite (then_connect _ _ _ Hc). unfold handler. by rewrite Hget. }
    assert (H2 : then_ (then_ connect (λ _, getDB))
                   (λ res w0, if negb (truthy res) then resolve VUndef w0
                              else db_call (db_destroyAsync (database (settings (this w0)))) w0)
                   w
                 = (Resolved VUndef, send (ReqDbGet unset) (attach w))).
    { by rewrite (then_resolved _ _ _ _ _ H1). }
    rewrite (then_resolved _ _ _ _ _ H2).
    unfold handler.
    change (this (send (ReqDbGet unset) (attach w))) with (this (attach w)).
    rewrite Hset. fold unset.
    by rewrite (then_rejected _ _ _ _ _ Hcreate). }
  split; [by exists h|].
  rewrite Hau, Ham. simpl. by rewrite Hs, Hl.
Qed.

Lemma automigrate_steps models w :
  automigrate models w
  = if negb (has_designDocs (this w)) then migrate_steps w
    else then_ migrate_steps (fun res => return_ saveDesignDocs res) w.
Proof. done. Qed.

Lemma migrate_steps_existing w n docs :
  wf_connection w →
  named (database (settings (this w))) = Some n →
  dbs (srv w) !! n = Some docs →
  migrate_steps w = (Resolved (db_info n), migrated n w).
Proof.
  intros Hwf Hname Hdocs.
  destruct (lifecycle_connect _ _ Hwf (db_name_database _ _ Hname))
    as (h & Hc & Hh & Ha & Hd).
  destruct (attach_frame w) as (_ & Hs & Hl & Hset & _).
  set (name := database (settings (this w))) in *.
  set (w1 := send (ReqDbGet name) (attach w)).
  assert (H1 : then_ connect (λ _, getDB) w = (Resolved (db_info n), w1)).
  { rewrite (then_connect _ _ _ Hc). unfold handler.
    rewrite (getDB_spec _ _ Hd), Hset. fold name. by rewrite Hname, Hs, Hdocs. }
  set (w2 := set_srv (Server (delete n (dbs (srv w))) (uuids (srv w)))
                     (send (ReqDbDestroy name) w1)).
  assert (H2 : db_call (db_destroyAsync name) w1 = (Resolved ok_info, w2)).
  { unfold db_call, db_destroyAsync. simpl. by rewrite Hd, Hname, Hs, Hdocs. }
  set (w3 := set_srv (Server (<[ n := ∅ ]> (delete n (dbs (srv w)))) (uuids (srv w)))
                     (send (ReqDbCreate name) w2)).
  assert (H3 : db_call (db_createAsync name) w2 = (Resolved ok_info, w3)).
  { unfold db_call, db_createAsync. simpl. rewrite Hd, Hname.
    by rewrite lookup_delete_eq. }
  assert (H4 : getDB w3 = (Resolved (db_info n), send (ReqDbGet name) w3)).
  { rewrite (getDB_spec w3 _ Hd).
    change (settings (this w3)) with (settings (this (attach w))).
    rewrite Hset. fold name. rewrite Hname. simpl.
    by rewrite lookup_insert_eq. }
  unfold migrate_steps.
  rewrite (then_resolved _ _ w ok_info w2).
  - unfold handler.
    change (settings (this w2)) with (settings (this (attach w))).
    rewrite Hset. fold name.
    rewrite (then_resolved _ _ _ _ _ H3). unfold handler. rewrite H4.
    unfold migrated, sent, send, set_srv, w3, w2, w1. simpl.
    fold name. by rewrite <- !app_assoc.
  - rewrite (then_resolved _ _ _ _ _ H1). unfold handler. simpl negb. cbv iota.
    change (settings (this w1)) with (settings (this (attach w))).
    rewrite Hset. fold name. by rewrite H2.
Qed.

Lemma handler_settles {A} (m : M A) w e : (handler m w).1 ≠ Thrown e.
Proof. unfold handler. by destruct (m w) as [[a|e'|e'] w']. Qed.

Lemma return_snd {A B} (p : M A) (b : B) w : (return_ p b w).2 = (p w).2.
Proof. unfold return_, then_. by destruct (p w) as [[a|e|e] w']. Qed.

Lemma lookup_doc_migrated n w id : lookup_doc (srv (migrated n w)) n id = None.
Proof.
  unfold lookup_doc, migrated. destruct id; try done.
  simpl. by rewrite lookup_insert_eq.
Qed.

(** C9 (as amended): [automigrate] on a connector whose [database] setting
    names an existing database destroys that database and creates it again;
    when the call has settled the database exists, every id that is not the
    id [_design/<name>] of a configured design document has no document, and
    [findById] on it is rejected with [NotFound].  Without configured design
    documents the call is fulfilled and the database is empty. *)
Theorem automigrate_resets (w : world) (n modelName : string) (id : value)
    (options : option loc) (models : list string) (docs : gmap string sdoc) :
  wf_connection w →
  named (database (settings (this w))) = Some n →
  dbs (srv w) !! n = Some docs →
  (∀ dd name, designDocs (settings (this w)) = Some dd →
              is_Some (dd !! name) → id ≠ VStr (design_id name)) →
  let w1 := (automigrate models w).2 in
  (∀ e, (automigrate models w).1 ≠ Thrown e)
  ∧ dbs (srv w1) !! n ≠ None
  ∧ lookup_doc (srv w1) n id = None
  ∧ (∃ w2, findById modelName id options w1 = (Rejected NotFound, w2))
  ∧ (designDocs (settings (this w)) = None →
     automigrate models w = (Resolved (db_info n), migrated n w)
     ∧ dbs (srv (migrated n w)) !! n = Some ∅).
Proof.
  intros Hwf Hname Hdocs Hid w1.
  pose proof (migrate_steps_existing _ _ _ Hwf Hname Hdocs) as Hsteps.
  pose proof (wf_connection_bound _ _ Hwf (db_name_database _ _ Hname)) as Hb.
  destruct (attach_frame w) as (_ & _ & _ & Hset & _).
  assert (Hbm : bound_db (migrated n w) = Some n) by by apply bound_db_attach.
  assert (Hempty : dbs (srv (migrated n w)) !! n = Some ∅).
  { unfold migrated. simpl. by rewrite lookup_insert_eq. }
  assert (Hfind : ∀ w', bound_db w' = Some n → lookup_doc (srv w') n id = None →
            ∃ w2, findById modelName id options w' = (Rejected NotFound, w2)).
  { intros w' Hb' Hl'. eexists.
    by rewrite (findById_bound _ _ _ _ _ Hb'), (found_doc_None _ _ _ _ Hl'). }
  subst w1. rewrite automigrate_steps. unfold has_designDocs.
  destruct (designDocs (settings (this w))) as [dd|] eqn:Edd; simpl negb; cbv iota.
  - rewrite (then_resolved _ _ _ _ _ Hsteps).
    assert (Edd' : designDocs (settings (this (migrated n w))) = Some dd).
    { change (settings (this (migrated n w))) with (settings (this (attach w))).
      by rewrite Hset. }
    destruct (saveDesignDocs_bound _ _ _ Hbm Edd') as (Hs1 & Ht1 & _).
    split; [intros e; apply handler_settles|].
    rewrite handler_snd, return_snd.
    set (w1 := (saveDesignDocs (migrated n w)).2) in *.
    assert (Hl1 : lookup_doc (srv w1) n id = None).
    { rewrite Hs1. destruct id as [| | | |i| | |]; try done.
      rewrite fold_sync_other; [apply lookup_doc_migrated|].
      right. intros (name & -> & Hin)%list_elem_of_fmap.
      apply Object_keys_elem in Hin. by apply (Hid dd name). }
    split; [|split; [done|split; [|done]]].
    + rewrite Hs1. intros Hnone. apply fold_sync_exists in Hnone. congruence.
    + apply Hfind; [|done].
      rewrite (bound_db_this _ _ Ht1). by rewrite bound_db_attach_eq.
  - rewrite Hsteps. cbn [fst snd].
    split; [done|]. split; [by rewrite Hempty|].
    split; [apply lookup_doc_migrated|].
    split; [|done]. apply Hfind; [done|apply lookup_doc_migrated].
Qed.

(** ** The properties of the specification on the concrete worlds *)

Example all_inq_example :
  (all "Model" example_query None example_world).1
  = Resolved
      [ VObj {[ "_id" := VStr "a"; "_rev" := VStr "1"; "id" := VStr "a";
                "name" := VStr "A" ]};
        VObj {[ "_id" := VStr "b"; "_rev" := VStr "2"; "id" := VStr "b";
                "name" := VStr "B" ]} ].
Proof. vm_compute. reflexivity. Qed.

Example replaceById_example :
  (replaceById "Model" (VStr "a") 0 (Some 1) example_world).1
  = Resolved (VObj {[ "_id" := VStr "a"; "_rev" := VStr "2"; "id" := VStr "a";
                      "name" := VStr "new" ]}).
Proof. vm_compute. reflexivity. Qed.

Example create_then_findById_example :
  (findById "Model" (VStr "uuid-0") None (create "Model" 2 None example_world).2).1
  = Resolved (VObj {[ "_id" := VStr "uuid-0"; "_rev" := VStr "1";
                      "id" := VStr "uuid-0"; "name" := VStr "x" ]}).
Proof. vm_compute. reflexivity. Qed.

Example destroyAll_example :
  (destroyAll "Model" (VObj example_where) None example_world).1
  = Resolved (count_info 2).
Proof. vm_compute. reflexivity. Qed.

(** ** Where the specification and the code part *)

(** C3, as stated, fails: with no database name configured, [connect] throws
    inside [destroyById]; the failure is not turned into [{count: 0}], the
    configuration error leaves [destroy] as an exception. *)
Lemma destroy_unconfigured_throws :
  destroyById "Model" (VStr "a") None unconfigured_world
  = (Thrown ConfigurationError, unconfigured_world)
  ∧ destroy "Model" (VStr "a") None unconfigured_world
    = (Thrown ConfigurationError, unconfigured_world)
  ∧ (destroy "Model" (VStr "a") None unconfigured_world).1 ≠ Resolved (count_info 0).
Proof. repeat split. discriminate. Qed.

(** C5, as stated, fails: [create] on a record without identifier is
    fulfilled with the id the store assigned, and the record object still has
    no identifier afterwards. *)
Lemma create_leaves_record_without_id :
  (create "Model" 2 None example_world).1 = Resolved (VStr "uuid-0", VStr "1")
  ∧ deref example_world 2 !! "id" = None
  ∧ deref (create "Model" 2 None example_world).2 2 !! "id" = None
  ∧ deref (create "Model" 2 None example_world).2 2 = deref example_world 2.
Proof. vm_compute. repeat split. Qed.

(** C9, as stated, fails: the id [_design/foo] existed before [automigrate];
    the call is fulfilled, and [findById] on that id finds the design
    document that the sync has written again. *)
Lemma automigrate_rewrites_design_doc :
  stored_fields (srv design_world) "mydb" (VStr "_design/foo")
  = Some {[ "views" := VObj ∅; "language" := VStr "javascript" ]}
  ∧ (automigrate [] design_world).1 = Resolved (db_info "mydb")
  ∧ (findById "Model" (VStr "_design/foo") None (automigrate [] design_world).2).1
    = Resolved (VObj {[ "_id" := VStr "_design/foo"; "_rev" := VStr "1";
                        "id" := VStr "_design/foo";
                        "views" := VObj {[ "byName" := VStr "map" ]} ]})
  ∧ (findById "Model" (VStr "_design/foo") None (automigrate [] design_world).2).1
    ≠ Rejected NotFound.
Proof. vm_compute. repeat split. discriminate. Qed.

(** ** The theorems at work on the concrete worlds *)

Lemma all_inq_witness :
  bound_db example_world = Some "mydb"
  ∧ ∃ w', all "Model" example_query None example_world
          = (Resolved (omap (found_doc "id" example_server "mydb")
                            [VStr "a"; VStr "missing"; VStr "b"]), w')
          ∧ srv w' = example_server ∧ heap w' = heap example_world
          ∧ log w' = [ReqGet "mydb" (VStr "a"); ReqGet "mydb" (VStr "missing");
                      ReqGet "mydb" (VStr "b")].
Proof.
  split; [reflexivity|].
  apply (all_inq_existing_in_key_order example_world "mydb" "Model" example_query None
           example_where example_inq); reflexivity.
Defined.

Lemma replaceById_missing_witness :
  bound_db example_world = Some "mydb"
  ∧ lookup_doc example_server "mydb" (VStr "missing") = None
  ∧ ∃ w', replaceById "Model" (VStr "missing") 0 (Some 1) example_world
          = (Rejected NotFound, w')
          ∧ srv w' = example_server ∧ heap w' = heap example_world
          ∧ log w' = [ReqGet "mydb" (VStr "missing")].
Proof.
  split; [reflexivity|]. split; [reflexivity|].
  apply (replaceById_missing example_world "mydb" "Model" (VStr "missing") 0 (Some 1));
    reflexivity.
Defined.

Lemma destroy_counts_witness :
  bound_db example_world = Some "mydb"
  ∧ ∃ w1 w2,
      destroy "Model" (VStr "a") None example_world = (Resolved (count_info 1), w1)
      ∧ lookup_doc (srv w1) "mydb" (VStr "a") = None
      ∧ destroyById "Model" (VStr "a") None w1 = (Rejected NotFound, w2)
      ∧ destroy "Model" (VStr "a") None w1 = (Resolved (count_info 0), w2).
Proof.
  split; [reflexivity|].
  destruct (destroy_counts example_world "mydb" "Model" (VStr "a") None eq_refl)
    as [_ Htwice].
  exact (Htwice (SDoc 1 {[ "name" := VStr "A" ]}) eq_refl).
Defined.

Lemma create_document_identity_witness :
  bound_db example_world = Some "mydb"
  ∧ ∃ r w', create "Model" 0 None example_world = (r, w')
            ∧ heap w' = heap example_world
            ∧ log w' = [ReqInsert "mydb"
                          (VObj (<[ "_id" := VStr "a" ]> (deref example_world 0))) None].
Proof.
  split; [reflexivity|].
  destruct (create_document_identity example_world "mydb" "Model" 0 None eq_refl)
    as (r & w' & Hrun & _ & Hheap & Hlog & _).
  exists r, w'. split; [exact Hrun|]. split; [exact Hheap|exact Hlog].
Defined.

Lemma saveDesignDocs_merge_witness :
  ∃ fields,
    stored_fields (srv (saveDesignDocs design_world).2) "mydb" (VStr (design_id "foo"))
    = Some fields
    ∧ fields !! "views" = Some (VObj {[ "byName" := VStr "map" ]})
    ∧ fields !! "language" = Some (VStr "javascript").
Proof.
  destruct (saveDesignDocs_idempotent_merge design_world) as [_ Hmerge].
  destruct (Hmerge "mydb" {[ "foo" := foo_definition ]} "foo" foo_definition design_docs
              eq_refl eq_refl eq_refl eq_refl eq_refl)
    as (fields & Hfields & _ & Hdef & Hold).
  exists fields. split; [exact Hfields|]. split.
  - apply Hdef; [reflexivity|discriminate].
  - rewrite Hold; [reflexivity|reflexivity|discriminate|discriminate].
Defined.

Lemma lifecycle_ignores_db_key_witness :
  wf_connection db_key_world
  ∧ (∃ h, connect db_key_world = (Resolved h, attach db_key_world) ∧ h_db h = "mydb")
  ∧ (autoupdate [] db_key_world).1 = Rejected BadRequest
  ∧ srv (autoupdate [] db_key_world).2 = Server ∅ 0
  ∧ log (autoupdate [] db_key_world).2 = [ReqDbGet None; ReqDbCreate None].
Proof.
  split; [apply wf_connection_init|].
  destruct (lifecycle_ignores_db_key db_key_world "mydb" []
              (wf_connection_init _ _ _ _) eq_refl eq_refl eq_refl)
    as (Hc & Hr & Hs & Hl & _).
  split; [exact Hc|]. split; [exact Hr|]. split; [exact Hs|exact Hl].
Defined.

Lemma connection_handle_lifecycle_witness :
  wf_connection example_world
  ∧ ∃ h, connect example_world = (Resolved h, attach example_world)
         ∧ h_db h = "mydb"
         ∧ _connection (this (attach example_world)) = Some h
         ∧ ∀ k, connect (Nat.iter k attach (attach example_world))
                = (Resolved h, attach example_world).
Proof.
  split; [apply wf_connection_init|].
  destruct (connection_handle_lifecycle example_world (wf_connection_init _ _ _ _))
    as (_ & Hfirst & _).
  exact (Hfirst "mydb" eq_refl).
Defined.

Lemma automigrate_resets_witness :
  wf_connection design_world
  ∧ dbs (srv design_world) !! "mydb" = Some design_docs
  ∧ lookup_doc (srv design_world) "mydb" (VStr "a") = Some (SDoc 1 {[ "name" := VStr "A" ]})
  ∧ lookup_doc (srv (automigrate [] design_world).2) "mydb" (VStr "a") = None
  ∧ ∃ w2, findById "Model" (VStr "a") None (automigrate [] design_world).2
          = (Rejected NotFound, w2).
Proof.
  split; [apply wf_connection_init|]. split; [reflexivity|]. split; [reflexivity|].
  assert (Hid : ∀ dd name,
            designDocs (settings (this design_world)) = Some dd →
            is_Some (dd !! name) → VStr "a" ≠ VStr (design_id name)).
  { intros dd name _ _ Heq. cbv in Heq. discriminate Heq. }
  destruct (automigrate_resets design_world "mydb" "Model" (VStr "a") None [] design_docs
              (wf_connection_init _ _ _ _) eq_refl eq_refl Hid)
    as (_ & _ & Hgone & Hfind & _).
  split; [exact Hgone|exact Hfind].
Defined.

Lemma caller_objects_frame_witness :
  heap (create "Model" 0 (Some 1) example_world).2 = heap example_world
  ∧ heap (save "Model" 0 (Some 1) example_world).2
    = <[ 1 := {[ "docName" := VStr "a" ]} ]> (heap example_world)
  ∧ deref (replaceById "Model" (VStr "a") 0 (Some 1) example_world).2 0 !! "_rev"
    = Some (VStr "1").
Proof.
  destruct (caller_objects_frame example_world "Model" 0)
    as (Hcreate & Hsave & _ & Hreplace).
  split; [exact (Hcreate (Some 1))|]. split; [exact (Hsave 1 eq_refl)|].
  destruct (Hreplace (Some 1) (VStr "a")
              (VObj (<[ "id" := VStr "a" ]> (stored_doc "a" (SDoc 1 {[ "name" := VStr "A" ]}))))
              "mydb" eq_refl eq_refl) as [Hrev _].
  - simpl. lia.
  - exact Hrev.
Defined.

(** ** The server URL *)

Lemma named_or_string a b : b ≠ EmptyString → named (Some (or_string a b)) = Some (or_string a b).
Proof.
  intros Hb. unfold or_string.
  destruct (named a) as [s|] eqn:E.
  - unfold named in *. destruct a as [x|]; [|done].
    destruct (String.eqb x EmptyString) eqn:Ex; [done|].
    injection E as <-. by rewrite Ex.
  - unfold named. destruct (String.eqb b EmptyString) eqn:Eb; [|done].
    by apply String.eqb_eq in Eb.
Qed.

Lemma or_string_fixed a b : b ≠ EmptyString → or_string (Some (or_string a b)) b = or_string a b.
Proof. intros Hb. unfold or_string at 1. by rewrite named_or_string. Qed.

Lemma or_number_fixed a b : b ≠ 0%Z → or_number (Some (or_number a b)) b = or_number a b.
Proof.
  intros Hb. unfold or_number.
  destruct a as [z|].
  - destruct (z =? 0)%Z eqn:Ez.
    + destruct (b =? 0)%Z eqn:Eb; [|done]. by apply Z.eqb_eq in Eb.
    + by rewrite Ez.
  - destruct (b =? 0)%Z eqn:Eb; [|done]. by apply Z.eqb_eq in Eb.
Qed.

Lemma or_string_nonempty a b : b ≠ EmptyString → or_string a b ≠ EmptyString.
Proof.
  intros Hb Heq. pose proof (named_or_string a b Hb) as H.
  rewrite Heq in H. done.
Qed.

(** X1: [generateCouchDBURL] fills in the defaults once and for all: the
    options it leaves behind carry a non-empty [hostname] and [protocol] and a
    non-zero [port]; a non-empty [hostname] wins over [host]; and a second call
    on them returns the same URL and changes nothing. *)
Theorem generateCouchDBURL_idempotent (options : UrlOptions) :
  let r := generateCouchDBURL options in
  generateCouchDBURL r.2 = r
  ∧ is_Some (named (hostname r.2))
  ∧ is_Some (named (protocol r.2))
  ∧ (∃ p, port r.2 = Some p ∧ p ≠ 0%Z)
  ∧ (∀ h, named (hostname options) = Some h → hostname r.2 = Some h).
Proof.
  intros r. subst r. unfold generateCouchDBURL. cbn [fst snd hostname host protocol port url].
  assert (H1 : "127.0.0.1" ≠ EmptyString) by done.
  assert (H2 : "http" ≠ EmptyString) by done.
  pose proof (or_string_nonempty (host options) _ H1) as H3.
  set (hst := or_string (host options) "127.0.0.1") in *.
  split; [|split; [|split; [|split]]].
  - by rewrite (or_string_fixed _ _ H3), (or_string_fixed _ _ H2), or_number_fixed.
  - by rewrite (named_or_string _ _ H3).
  - by rewrite (named_or_string _ _ H2).
  - eexists. split; [done|]. unfold or_number.
    destruct (port options) as [z|]; [|done].
    destruct (z =? 0)%Z eqn:Ez; [done|]. by apply Z.eqb_neq.
  - intros h Hn. unfold or_string at 1. by rewrite Hn.
Qed.

Lemma append_nonempty_r a b : b ≠ EmptyString → a ++ b ≠ EmptyString.
Proof. intros Hb. destruct a as [|c a]; [done|]. discriminate. Qed.

(** X2: the constructor always leaves a non-empty [url] in the settings.  A
    non-empty [url] given by the configuration is kept and nothing else is
    touched (the host defaults are not filled in); otherwise the generated URL
    is stored, together with the defaults; and constructing twice changes
    nothing more. *)
Theorem CouchDB_url_settled (settings : UrlOptions) :
  let settings' := CouchDB_url settings in
  is_Some (named (url settings'))
  ∧ CouchDB_url settings' = settings'
  ∧ (is_Some (named (url settings)) → settings' = settings)
  ∧ (named (url settings) = None →
     url settings' = Some (generateCouchDBURL settings).1
     ∧ hostname settings' = hostname (generateCouchDBURL settings).2
     ∧ protocol settings' = protocol (generateCouchDBURL settings).2
     ∧ port settings' = port (generateCouchDBURL settings).2).
Proof.
  intros settings'. subst settings'.
  assert (Hgen : ∀ o, named (Some (generateCouchDBURL o).1) = Some (generateCouchDBURL o).1).
  { intros o. unfold generateCouchDBURL. cbn [fst].
    unfold named. destruct (String.eqb _ EmptyString) eqn:E; [|done].
    apply String.eqb_eq in E. exfalso. revert E.
    apply append_nonempty_r. done. }
  assert (Hkeep : ∀ o, is_Some (named (url o)) → CouchDB_url o = o).
  { intros o [u Hu]. unfold CouchDB_url. by rewrite Hu. }
  assert (Hsome : is_Some (named (url (CouchDB_url settings)))).
  { unfold CouchDB_url. destruct (named (url settings)) as [u|] eqn:E.
    - rewrite E. by eexists.
    - destruct (generateCouchDBURL settings) as [u o'] eqn:Eg. cbn [url].
      pose proof (Hgen settings) as H. rewrite Eg in H. cbn [fst] in H.
      rewrite H. by eexists. }
  split; [done|]. split; [by apply Hkeep|]. split; [apply Hkeep|].
  intros Hnone. unfold CouchDB_url. rewrite Hnone.
  by destruct (generateCouchDBURL settings).
Qed.

(** ** The database URL *)

Lemma last_char_append_slash s : last_char (s ++ "/") = Some "/"%char.
Proof.
  induction s as [|c s IH]; [done|].
  change (String c s ++ "/") with (String c (s ++ "/")).
  cbn [last_char]. destruct (s ++ "/") eqn:E; [|done].
  by destruct s.
Qed.

(** X3: [urlResolveFix] hands [url.resolve] a base that is empty or ends with
    a slash, so a base URL gives the same result with or without its trailing
    slash; the empty base is passed on as it is. *)
Theorem urlResolveFix_trailing_slash (url_resolve : string → string → string)
    (couchUrl dbName : string) :
  (∃ base, urlResolveFix url_resolve couchUrl dbName = url_resolve base dbName
           ∧ test_no_trailing_slash base = false
           ∧ (base = couchUrl ∨ base = couchUrl ++ "/"))
  ∧ (test_no_trailing_slash couchUrl = true →
     urlResolveFix url_resolve (couchUrl ++ "/") dbName
     = urlResolveFix url_resolve couchUrl dbName)
  ∧ urlResolveFix url_resolve EmptyString dbName = url_resolve EmptyString dbName.
Proof.
  assert (Hslash : ∀ s, test_no_trailing_slash (s ++ "/") = false).
  { intros s. unfold test_no_trailing_slash. by rewrite last_char_append_slash. }
  split; [|split; [|done]].
  - unfold urlResolveFix.
    destruct (test_no_trailing_slash couchUrl) eqn:E.
    + exists (couchUrl ++ "/"). repeat split; [apply Hslash|by right].
    + exists couchUrl. repeat split; [done|by left].
  - intros Ht. unfold urlResolveFix. by rewrite Hslash, Ht.
Qed.

(** ** Start-up and the unconfigured connector *)

(** X4: [initialize] leaves a connected, consistent connector bound to the
    [database] setting when that is a non-empty string and else to the [db]
    setting, without sending any request; when neither names a database it
    throws the configuration error and the connector stays disconnected. *)
Theorem initialize_connects (s : Settings) (idn : string → string) (objs : list obj)
    (sv : server) :
  let w0 := init_world s idn objs sv in
  (∀ n, db_name (this w0) = Some n →
        ∃ h, initialize s idn objs sv = (Resolved h, attach w0)
             ∧ h_db h = n
             ∧ wf_connection (attach w0)
             ∧ bound_db (attach w0) = Some n
             ∧ srv (attach w0) = sv ∧ heap (attach w0) = objs ∧ log (attach w0) = [])
  ∧ (db_name (this w0) = None →
     initialize s idn objs sv = (Thrown ConfigurationError, w0))
  ∧ (∀ n, named (database s) = Some n → db_name (this w0) = Some n)
  ∧ (named (database s) = None → db_name (this w0) = named (db s)).
Proof.
  intros w0. split; [|split; [|split]].
  - intros n Hn.
    assert (Hb : bound_db w0 = Some n) by done.
    destruct (connect_bound _ _ Hb) as (h & Hc & Hh & Ha).
    destruct (attach_frame w0) as (Hheap & Hsrv & Hlog & _).
    exists h. repeat split; try done.
    + apply wf_connection_attach, wf_connection_init.
    + by apply bound_db_attach.
  - intros Hn. by apply connect_unconfigured.
  - intros n Hn. unfold db_name, or_else. simpl. by rewrite Hn.
  - intros Hn. unfold db_name, or_else. simpl. by rewrite Hn.
Qed.

Lemma connect_unbound w : bound_db w = None → connect w = (Thrown ConfigurationError, w).
Proof.
  unfold bound_db. intros H.
  destruct (_connection (this w)) eqn:E; [done|]. by apply connect_unconfigured.
Qed.

(** X5: with no connection and no database name every hook that needs the
    connection throws the configuration error at once, as an exception and
    not as a rejected promise, and leaves the world as it was: nothing is
    sent, nothing is changed. *)
Theorem unconfigured_hooks_throw (w : world) (modelName : string) (id : value)
    (data : loc) (options : option loc) (models : list string) :
  bound_db w = None →
  findById modelName id options w = (Thrown ConfigurationError, w)
  ∧ destroyById modelName id options w = (Thrown ConfigurationError, w)
  ∧ destroy modelName id options w = (Thrown ConfigurationError, w)
  ∧ create modelName data options w = (Thrown ConfigurationError, w)
  ∧ replaceById modelName id data options w = (Thrown ConfigurationError, w)
  ∧ saveDesignDocs w = (Thrown ConfigurationError, w)
  ∧ autoupdate models w = (Thrown ConfigurationError, w)
  ∧ automigrate models w = (Thrown ConfigurationError, w).
Proof.
  intros Hb. pose proof (connect_unbound _ Hb) as Hc.
  assert (Hfind : findById modelName id options w = (Thrown ConfigurationError, w)).
  { unfold findById, then_. by rewrite Hc. }
  assert (Hdel : destroyById modelName id options w = (Thrown ConfigurationError, w)).
  { unfold destroyById, let_promise. by rewrite Hc. }
  repeat split; try done.
  - unfold destroy, catchReturn, return_, then_. by rewrite Hdel.
  - unfold create, then_. by rewrite Hc.
  - unfold replaceById, then_. by rewrite Hfind.
  - unfold saveDesignDocs, let_promise. by rewrite Hc.
  - unfold autoupdate, let_promise. by rewrite Hc.
  - unfold automigrate, then_. rewrite Hc. by destruct (negb _).
Qed.

Lemma promise_map_all_rejected {A B} (f : A → M B) e w x l :
  (∀ a, handler (f a) w = (Rejected e, w)) →
  promise_map f (x :: l) w = (Rejected e, w).
Proof.
  intros Hf. revert x. induction l as [|y l IH]; intros x.
  - simpl. by rewrite Hf.
  - change (promise_map f (x :: y :: l) w)
      with (let '(r, w1) := handler (f x) w in
            let '(rs, w2) := promise_map f (y :: l) w1 in
            (match r, rs with
             | Resolved b, Resolved bs => Resolved (b :: bs)
             | Resolved _, Rejected e => Rejected e
             | Resolved _, Thrown e => Rejected e
             | Rejected e, _ => Rejected e
             | Thrown e, _ => Rejected e
             end, w2)).
    by rewrite Hf, IH.
Qed.

Lemma getKeysFromWhere_array c modelName where_ :
  getKeysFromWhere c modelName where_
  = VArr (array_items (getKeysFromWhere c modelName where_)).
Proof.
  unfold getKeysFromWhere.
  destruct (is_nullish _); [done|].
  destruct (is_string _ || isBuffer _); [done|].
  destruct (prop _ "inq"); done.
Qed.

(** X6: the bulk hooks differ.  On a connector without connection and
    database name, [all] and [destroyAll] with at least one key do not throw:
    the configuration error of the per-key call rejects the promise they
    return; nothing is sent or changed. *)
Theorem unconfigured_bulk_rejects (w : world) (modelName : string) (query where_ : value)
    (options : option loc) :
  bound_db w = None →
  (is_nullish (prop query "where") = false →
   array_items (getKeysFromWhere (this w) modelName (prop query "where")) ≠ [] →
   all modelName query options w = (Rejected ConfigurationError, w))
  ∧ (array_items (getKeysFromWhere (this w) modelName where_) ≠ [] →
     destroyAll modelName where_ options w = (Rejected ConfigurationError, w)).
Proof.
  intros Hb. pose proof (connect_unbound _ Hb) as Hc.
  split.
  - intros Hw Hkeys. unfold all. rewrite Hw, getKeysFromWhere_array. simpl truthy. cbv iota.
    cbn [array_items].
    destruct (array_items _) as [|k keys]; [done|].
    unfold filter_Boolean, then_. rewrite (promise_map_all_rejected _ ConfigurationError); [done|].
    intros a. unfold handler, catchReturn, findById, then_. by rewrite Hc.
  - intros Hkeys. unfold destroyAll. rewrite getKeysFromWhere_array. simpl truthy. cbv iota.
    cbn [array_items].
    destruct (array_items _) as [|k keys]; [done|].
    unfold filter_Boolean, then_. rewrite (promise_map_all_rejected _ ConfigurationError); [done|].
    intros a. unfold handler, catchReturn, destroyById, let_promise. by rewrite Hc.
Qed.

(** X7: [save] sets [options.docName] before it asks for the connection: on a
    connector without connection and database name it throws the
    configuration error, and the caller's options object has already been
    changed. *)
Theorem unconfigured_save_throws_after_mutation (w : world) (modelName : string)
    (data : loc) (options : option loc) :
  bound_db w = None →
  save modelName data options w
  = (Thrown ConfigurationError, save_effect modelName data options w)
  ∧ (∀ o, options = Some o →
          is_nullish (getIdValue (this w) modelName (VObj (deref w data))) = false →
          heap (save modelName data options w).2
          = <[ o := <[ "docName" := getIdValue (this w) modelName (VObj (deref w data)) ]>
                      (deref w o) ]> (heap w)).
Proof.
  intros Hb.
  assert (Hrun : save modelName data options w
                 = (Thrown ConfigurationError, save_effect modelName data options w)).
  { unfold save, save_effect. destruct options as [o|].
    - set (w1 := if negb _ then _ else _).
      assert (Hb1 : bound_db w1 = None).
      { unfold w1. by destruct (negb _). }
      unfold then_. by rewrite (connect_unbound _ Hb1).
    - unfold then_. by rewrite (connect_unbound _ Hb). }
  split; [done|].
  intros o -> Hid. rewrite Hrun. unfold save_effect. by rewrite Hid.
Qed.


(** ** Bulk deletion *)

Lemma lookup_doc_remove_other n i s n' id :
  id ≠ VStr i ∨ n' ≠ n →
  lookup_doc (remove_doc n i s) n' id = lookup_doc s n' id.
Proof.
  intros Hne. unfold lookup_doc, remove_doc.
  destruct id as [| | | |j| | |]; try done. simpl.
  rewrite lookup_alter. case_decide as Hn; [subst n'|done].
  destruct (dbs s !! n) as [docs|]; [|done]. simpl.
  rewrite lookup_delete_ne; [done|].
  intros ->. by destruct Hne.
Qed.

Lemma removed_lookup_same n k s : lookup_doc (removed n k s) n k = None.
Proof.
  unfold removed. destruct k as [| | | |i| | |]; try done.
  destruct (lookup_doc s n (VStr i)) eqn:E; [apply lookup_doc_remove|done].
Qed.

Lemma removed_lookup_other n k s n' id :
  id ≠ k ∨ n' ≠ n → lookup_doc (removed n k s) n' id = lookup_doc s n' id.
Proof.
  intros Hne. unfold removed. destruct k as [| | | |i| | |]; try done.
  destruct (lookup_doc s n (VStr i)); [|done]. by apply lookup_doc_remove_other.
Qed.

Lemma removed_lookup_mono n k s n' id :
  lookup_doc s n' id = None → lookup_doc (removed n k s) n' id = None.
Proof.
  intros Hnone. unfold removed. destruct k as [| | | |i| | |]; try done.
  destruct (lookup_doc s n (VStr i)) eqn:E; [|done].
  unfold lookup_doc, remove_doc in *.
  destruct id as [| | | |j| | |]; try done. simpl.
  rewrite lookup_alter. case_decide as Hn; [subst n'|done].
  destruct (dbs s !! n) as [docs|]; [|done]. simpl in *.
  rewrite lookup_delete. by case_decide.
Qed.

Lemma fold_removed_in n keys : ∀ s k,
  k ∈ keys → lookup_doc (foldl (λ s k, removed n k s) s keys) n k = None.
Proof.
  assert (Hmono : ∀ keys s n' id, lookup_doc s n' id = None →
            lookup_doc (foldl (λ s k, removed n k s) s keys) n' id = None).
  { intros l. induction l as [|x l IH]; intros s n' id H; [done|].
    simpl. by apply IH, removed_lookup_mono. }
  induction keys as [|x keys IH]; intros s k Hin.
  { by apply elem_of_nil in Hin. }
  simpl. apply elem_of_cons in Hin as [->|Hin]; [|by apply IH].
  apply Hmono, removed_lookup_same.
Qed.

Lemma fold_removed_other n keys : ∀ s n' id,
  id ∉ keys ∨ n' ≠ n →
  lookup_doc (foldl (λ s k, removed n k s) s keys) n' id = lookup_doc s n' id.
Proof.
  induction keys as [|x keys IH]; intros s n' id Hne; [done|].
  simpl. rewrite IH.
  - apply removed_lookup_other. destruct Hne as [Hne|Hne]; [left|by right].
    intros ->. apply Hne. left.
  - destruct Hne as [Hne|Hne]; [left|by right].
    intros Hin. apply Hne. by right.
Qed.

Lemma filter_ext_in {A} (P Q : A → Prop) `{!∀ x, Decision (P x)} `{!∀ x, Decision (Q x)}
    (l : list A) :
  (∀ x, x ∈ l → P x ↔ Q x) → filter P l = filter Q l.
Proof.
  induction l as [|x l IH]; intros Hext; [done|].
  rewrite !filter_cons, IH.
  - apply decide_ext, Hext. left.
  - intros y Hy. apply Hext. by right.
Qed.

(** One key of [destroyAll] on a bound connector. *)
Lemma destroy_or_false_bound w n modelName k options :
  bound_db w = Some n →
  ∃ r w', handler (catchReturn (destroyById modelName k options) (VBool false)) w
          = (Resolved r, w')
    ∧ (truthy r = true ↔ is_Some (lookup_doc (srv w) n k))
    ∧ srv w' = removed n k (srv w)
    ∧ heap w' = heap w
    ∧ bound_db w' = Some n
    ∧ idName (this w') = idName (this w).
Proof.
  intros Hb. destruct (attach_frame w) as (Hh & Hs & _ & _ & Hi).
  pose proof (bound_db_attach _ _ Hb) as Hba.
  unfold handler, catchReturn. rewrite (destroyById_bound _ _ _ _ _ Hb).
  unfold destroyed, removed.
  destruct k as [| | | |i| | |];
    try (eexists _, _; split; [done|]; repeat split; try done; by intros []).
  destruct (lookup_doc (srv w) n (VStr i)) as [d|] eqn:E.
  - eexists _, _. split; [done|]. repeat split; try done; by eexists.
  - eexists _, _. split; [done|]. repeat split; try done; by intros [].
Qed.

Lemma destroyAll_mapper_bound modelName options keys : ∀ w n,
  bound_db w = Some n →
  ∃ rs w', promise_map (λ id, catchReturn (destroyById modelName id options) (VBool false))
                       keys w
           = (Resolved rs, w')
    ∧ srv w' = foldl (λ s k, removed n k s) (srv w) keys
    ∧ heap w' = heap w
    ∧ (keys = [] ∧ w' = w ∨ bound_db w' = Some n ∧ idName (this w') = idName (this w))
    ∧ (NoDup keys →
       length (filter (λ v, truthy v = true) rs)
       = length (filter (λ k, is_Some (lookup_doc (srv w) n k)) keys)).
Proof.
  induction keys as [|k keys IH]; intros w n Hb.
  - exists [], w. repeat split; try done. by left.
  - destruct (destroy_or_false_bound w n modelName k options Hb)
      as (r & w1 & Hstep & Htr & Hs1 & Hh1 & Hb1 & Hi1).
    destruct (IH w1 n Hb1) as (rs & w' & Hrun & Hs' & Hh' & Hthis & Hcount).
    exists (r :: rs), w'.
    split; [simpl; by rewrite Hstep, Hrun|].
    split; [by rewrite Hs', Hs1|]. split; [by rewrite Hh', Hh1|].
    split.
    + right. destruct Hthis as [[_ ->]|[Hb' Hi']]; [done|]. by rewrite Hi', Hi1.
    + intros [Hk Hnd]%NoDup_cons.
      assert (Hrest : filter (λ k0, is_Some (lookup_doc (srv w1) n k0)) keys
                      = filter (λ k0, is_Some (lookup_doc (srv w) n k0)) keys).
      { apply filter_ext_in. intros x Hx. rewrite Hs1.
        rewrite removed_lookup_other; [done|]. left. by intros ->. }
      rewrite !filter_cons, <- Hrest.
      destruct (decide (truthy r = true)) as [Ht|Ht],
               (decide (is_Some (lookup_doc (srv w) n k))) as [Hsome|Hnone];
        simpl; rewrite ?(Hcount Hnd); try done.
      * by apply Htr in Ht.
      * by apply Htr in Hsome.
Qed.

Lemma destroyAll_bound w n modelName where_ options :
  bound_db w = Some n →
  ∃ rs w', destroyAll modelName where_ options w
           = (Resolved (count_info (Z.of_nat (length (filter (λ v, truthy v = true) rs)))), w')
    ∧ promise_map (λ id, catchReturn (destroyById modelName id options) (VBool false))
                  (array_items (getKeysFromWhere (this w) modelName where_)) w
      = (Resolved rs, w').
Proof.
  intros Hb.
  destruct (destroyAll_mapper_bound modelName options
              (array_items (getKeysFromWhere (this w) modelName where_)) w n Hb)
    as (rs & w' & Hrun & _).
  exists rs, w'. split; [|done].
  unfold destroyAll. rewrite getKeysFromWhere_array. simpl truthy. cbv iota.
  cbn [array_items]. unfold filter_Boolean, then_. by rewrite Hrun.
Qed.

(** X9: on a bound connector, [destroyAll] with a list of distinct keys is
    fulfilled with the number of keys that had a document; afterwards none of
    the keys has a document, and every other document, in this and in any
    other database, and the caller's objects are as before. *)
Theorem destroyAll_counts_existing (w : world) (n modelName : string) (where_ : value)
    (options : option loc) (keys : list value) :
  bound_db w = Some n →
  getKeysFromWhere (this w) modelName where_ = VArr keys →
  NoDup keys →
  ∃ w', destroyAll modelName where_ options w
        = (Resolved (count_info
             (Z.of_nat (length (filter (λ k, is_Some (lookup_doc (srv w) n k)) keys)))), w')
    ∧ (∀ k, k ∈ keys → lookup_doc (srv w') n k = None)
    ∧ (∀ n' id, id ∉ keys ∨ n' ≠ n → lookup_doc (srv w') n' id = lookup_doc (srv w) n' id)
    ∧ heap w' = heap w.
Proof.
  intros Hb Hkeys Hnd.
  destruct (destroyAll_bound w n modelName where_ options Hb) as (rs & w' & Hrun & Hmap).
  rewrite Hkeys in Hmap. cbn [array_items] in Hmap.
  destruct (destroyAll_mapper_bound modelName options keys w n Hb)
    as (rs' & w'' & Hmap' & Hs & Hh & _ & Hcount).
  rewrite Hmap in Hmap'. injection Hmap' as <- <-.
  exists w'. rewrite Hrun, (Hcount Hnd). split; [done|].
  split; [|split; [|done]].
  - intros k Hin. rewrite Hs. by apply fold_removed_in.
  - intros n' id Hne. rewrite Hs. by apply fold_removed_other.
Qed.

Lemma getKeysFromWhere_idName c c' modelName where_ :
  idName c' = idName c →
  getKeysFromWhere c' modelName where_ = getKeysFromWhere c modelName where_.
Proof. intros H. unfold getKeysFromWhere, getIdValue. by rewrite H. Qed.

Lemma found_docs_gone idField s n keys :
  (∀ k, k ∈ keys → lookup_doc s n k = None) → omap (found_doc idField s n) keys = [].
Proof.
  induction keys as [|k keys IH]; intros H; [done|].
  simpl. rewrite found_doc_None by (apply H; left).
  apply IH. intros k' Hk'. apply H. by right.
Qed.

(** X10: after [destroyAll] on a filter, [all] on the same filter finds
    nothing: on a bound connector it is fulfilled with the empty list,
    whatever keys the filter yields (duplicates and keys without document
    included). *)
Theorem destroyAll_then_all_empty (w : world) (n modelName : string) (where_ : value)
    (options options' : option loc) :
  bound_db w = Some n →
  ∃ w2, all modelName (VObj {[ "where" := where_ ]}) options'
            (destroyAll modelName where_ options w).2
        = (Resolved [], w2).
Proof.
  intros Hb.
  destruct (destroyAll_bound w n modelName where_ options Hb) as (rs & w1 & Hrun & Hmap).
  destruct (destroyAll_mapper_bound modelName options
              (array_items (getKeysFromWhere (this w) modelName where_)) w n Hb)
    as (rs' & w1' & Hmap' & Hs & _ & Hthis & _).
  rewrite Hmap in Hmap'. injection Hmap' as <- <-.
  rewrite Hrun. cbn [snd].
  set (keys := array_items (getKeysFromWhere (this w) modelName where_)) in *.
  assert (Hq : prop (VObj {[ "where" := where_ ]}) "where" = where_).
  { simpl. by rewrite lookup_singleton_eq. }
  destruct Hthis as [[Hnil ->]|[Hb1 Hi1]].
  - exists w. unfold all. rewrite Hq.
    destruct (is_nullish where_); [done|].
    rewrite getKeysFromWhere_array. fold keys. by rewrite Hnil.
  - unfold all. rewrite Hq.
    destruct (is_nullish where_); [by eexists|].
    rewrite (getKeysFromWhere_idName _ _ _ _ Hi1), getKeysFromWhere_array. fold keys.
    simpl truthy. cbv iota. cbn [array_items].
    destruct (all_mapper_bound modelName options' keys w1 n Hb1) as (w2 & Hall & _).
    exists w2. unfold filter_Boolean, then_. rewrite Hall. simpl.
    rewrite found_docs_truthy, found_docs_gone; [done|].
    intros k Hk. rewrite Hs. by apply fold_removed_in.
Qed.

(** ** Writing single documents *)


Lemma put_doc_new n i body s docs :
  dbs s !! n = Some docs → docs !! i = None → body !! "_rev" = None →
  put_doc n i body s = (Resolved (receipt i 1), write_doc n i (SDoc 1 (strip body)) s).
Proof. intros Hn Hi Hr. unfold put_doc. by rewrite Hn, Hi, Hr. Qed.

Lemma put_doc_current n i body s d :
  lookup_doc s n (VStr i) = Some d →
  rev_matches (body !! "_rev") (sd_rev d) = true →
  put_doc n i body s
  = (Resolved (receipt i (N.succ (sd_rev d))),
     write_doc n i (SDoc (N.succ (sd_rev d)) (strip body)) s).
Proof.
  unfold lookup_doc, put_doc. destruct (dbs s !! n) as [docs|]; [|done].
  simpl. intros -> ->. done.
Qed.

Lemma put_doc_conflict n i body s d :
  lookup_doc s n (VStr i) = Some d →
  rev_matches (body !! "_rev") (sd_rev d) = false →
  put_doc n i body s = (Rejected Conflict, s).
Proof.
  unfold lookup_doc, put_doc. destruct (dbs s !! n) as [docs|]; [|done].
  simpl. intros -> ->. done.
Qed.

Lemma lookup_doc_written n i d s d0 :
  lookup_doc s n (VStr i) = Some d0 ∨ (∃ docs, dbs s !! n = Some docs) →
  lookup_doc (write_doc n i d s) n (VStr i) = Some d.
Proof.
  intros H. assert (∃ docs, dbs s !! n = Some docs) as [docs Hdocs].
  { destruct H as [H|H]; [|done]. unfold lookup_doc in H.
    destruct (dbs s !! n) as [docs|]; [by eexists|done]. }
  by eapply lookup_doc_write.
Qed.

(** The put a [docName] option addresses, and the put the document's own
    [_id] addresses. *)
Lemma insertAsync_by_docName h body (opts : obj) i w :
  opts !! "docName" = Some (VStr i) → i ≠ EmptyString →
  insertAsync h (VObj body) (Some opts) w
  = on_server (put_doc (h_db h) i body) (send (ReqInsert (h_db h) (VObj body) (Some opts)) w).
Proof.
  intros Ho Hi. unfold insertAsync. simpl (default _ _). rewrite Ho. simpl.
  destruct (String.eqb i EmptyString) eqn:E; [|done].
  by apply String.eqb_eq in E.
Qed.

Lemma insertAsync_by_id h body opts i w :
  truthy (default VUndef (opts ≫= (λ o : obj, o !! "docName"))) = false →
  body !! "_id" = Some (VStr i) →
  insertAsync h (VObj body) opts w
  = on_server (put_doc (h_db h) i body) (send (ReqInsert (h_db h) (VObj body) opts) w).
Proof. intros Ho Hi. unfold insertAsync. by rewrite Ho, Hi. Qed.

Lemma getIdValue_record c modelName (record : obj) :
  getIdValue c modelName (VObj record) = default VUndef (record !! idName c modelName).
Proof. done. Qed.

(** X11: [create] followed by [findById].  On a bound connector whose database
    exists, creating a record that carries a non-empty string identifier
    under which nothing is stored (no [_rev] in the record, no [docName]
    option) is fulfilled with that identifier and the first revision;
    [findById] on it then returns the record's fields, with [_id], [_rev] and
    the identifier field set by the store and the connector.  The caller's
    objects are never touched. *)
Theorem create_then_findById (w : world) (n modelName : string) (data : loc)
    (options options' : option loc) (i : string) (docs : gmap string sdoc) :
  bound_db w = Some n →
  dbs (srv w) !! n = Some docs →
  docs !! i = None →
  i ≠ EmptyString →
  getIdValue (this w) modelName (VObj (deref w data)) = VStr i →
  deref w data !! "_rev" = None →
  truthy (default VUndef (deref_opt w options ≫= (λ o : obj, o !! "docName"))) = false →
  ∃ w1 w2,
    create modelName data options w = (Resolved (VStr i, rev_token 1), w1)
    ∧ findById modelName (VStr i) options' w1
      = (Resolved (VObj (<[ idName (this w) modelName := VStr i ]>
                           (<[ "_id" := VStr i ]>
                              (<[ "_rev" := rev_token 1 ]> (strip (deref w data)))))), w2)
    ∧ heap w2 = heap w.
Proof.
  intros Hb Hdb Hnew Hne Hid Hrev Hopt.
  destruct (create_bound _ _ modelName data options Hb) as (h & <- & Hc).
  destruct (attach_frame w) as (Hh & Hs & _ & _ & Hi).
  rewrite Hid in Hc. simpl negb in Hc. cbv iota in Hc.
  set (body := <[ "_id" := VStr i ]> (deref w data)) in *.
  assert (Hput : insertAsync h (VObj body) (deref_opt w options) (attach w)
                 = (Resolved (receipt i 1),
                    set_srv (write_doc (h_db h) i (SDoc 1 (strip (deref w data))) (srv w))
                            (send (ReqInsert (h_db h) (VObj body) (deref_opt w options))
                                  (attach w)))).
  { rewrite (insertAsync_by_id _ _ _ i) by (done || apply lookup_insert_eq).
    unfold on_server. simpl. rewrite Hs.
    rewrite (put_doc_new _ _ _ _ docs)
      by (done || (unfold body; by rewrite lookup_insert_ne)).
    unfold body. by rewrite strip_insert_id. }
  set (w1 := set_srv _ _) in Hput.
  assert (Hb1 : bound_db w1 = Some (h_db h)) by by apply bound_db_attach.
  exists w1, (send (ReqGet (h_db h) (VStr i)) (attach w1)).
  split; [|split].
  - rewrite Hc. unfold then_. by rewrite Hput.
  - rewrite (findById_bound _ _ _ _ _ Hb1).
    unfold found_doc. simpl srv.
    rewrite (lookup_doc_write _ _ _ _ docs) by done.
    simpl. by rewrite Hi.
  - destruct (attach_frame w1) as (Hh1 & _). simpl. rewrite Hh1.
    unfold w1. simpl. exact Hh.
Qed.

(** X12: no write over an existing document without its current revision.
    On a bound connector, when a document is stored under the record's
    non-empty string identifier and the record does not carry that document's
    current [_rev], both [create] and [save] are rejected with [Conflict] and
    the server is left as it was. *)
Theorem no_overwrite_without_rev (w : world) (n modelName : string) (data : loc)
    (i : string) (d : sdoc) :
  bound_db w = Some n →
  lookup_doc (srv w) n (VStr i) = Some d →
  i ≠ EmptyString →
  getIdValue (this w) modelName (VObj (deref w data)) = VStr i →
  rev_matches (deref w data !! "_rev") (sd_rev d) = false →
  (create modelName data None w).1 = Rejected Conflict
  ∧ srv (create modelName data None w).2 = srv w
  ∧ (save modelName data None w).1 = Rejected Conflict
  ∧ srv (save modelName data None w).2 = srv w.
Proof.
  intros Hb Hd Hne Hid Hrev.
  destruct (attach_frame w) as (_ & Hs & _).
  destruct (create_bound _ _ modelName data None Hb) as (h & <- & Hc).
  rewrite Hid in Hc. simpl negb in Hc. cbv iota in Hc.
  assert (Hcreate : (create modelName data None w).1 = Rejected Conflict
                    ∧ srv (create modelName data None w).2 = srv w).
  { rewrite Hc. unfold then_.
    rewrite (insertAsync_by_id _ _ _ i) by (done || apply lookup_insert_eq).
    unfold on_server. simpl. rewrite Hs.
    rewrite (put_doc_conflict _ _ _ _ d) by (done || by rewrite lookup_insert_ne).
    done. }
  destruct (connect_bound _ _ Hb) as (h' & Hc' & Hh' & _).
  assert (Hsave : (save modelName data None w).1 = Rejected Conflict
                  ∧ srv (save modelName data None w).2 = srv w).
  { unfold save. rewrite Hid. simpl negb. cbv iota.
    rewrite (then_connect _ _ _ Hc'). unfold handler.
    rewrite (insertAsync_by_docName _ _ _ i) by (done || apply lookup_singleton_eq).
    unfold on_server. simpl. rewrite Hs, Hh'.
    rewrite (put_doc_conflict _ _ _ _ d) by done.
    done. }
  tauto.
Qed.

(** ** Replacing a document *)

(** [replaceById] once the document is found: the record gets [_rev], [save]
    sends it, and a fulfilled write is followed by the second read. *)
Lemma replaceById_run w n modelName id data options res :
  bound_db w = Some n →
  found_doc (idName (this w) modelName) (srv w) n id = Some res →
  let w2 := set_prop data "_rev" (prop res "_rev") (send (ReqGet n id) (attach w)) in
  let w3 := save_effect modelName data options w2 in
  ∃ h, h_db h = n ∧ _connection (this w3) = Some h
    ∧ replaceById modelName id data options w
      = let '(r, w4) := insertAsync h (VObj (deref w3 data))
                          (Some (save_options modelName data options w2)) w3 in
        match r with
        | Resolved _ => findById modelName id options w4
        | Rejected e => (Rejected e, w4)
        | Thrown e => (Rejected e, w4)
        end.
Proof.
  intros Hb Hf w2 w3.
  destruct (connect_bound _ _ Hb) as (h & _ & Hn & Ha).
  assert (H2 : _connection (this w2) = Some h) by done.
  assert (H3 : _connection (this w3) = Some h).
  { unfold w3, save_effect. destruct options; [|done]. simpl. by destruct (negb _). }
  exists h. split; [done|]. split; [done|].
  rewrite (replaceById_found _ _ _ _ _ _ _ Hb Hf). fold w2.
  unfold handler at 1. rewrite (save_connected _ _ _ _ _ H2). fold w3.
  rewrite handler_insertAsync.
  destruct (insertAsync_log h (VObj (deref w3 data))
              (Some (save_options modelName data options w2)) w3) as [_ Ht].
  destruct (insertAsync _ _ _ _) as [[a|e|e] w4]; try done.
  simpl in Ht.
  assert (H4 : _connection (this w4) = Some h) by by rewrite Ht.
  unfold handler. rewrite (findById_connected _ _ _ _ _ H4).
  unfold found_or_404. by destruct (found_doc _ (srv w4) _ _).
Qed.

(** X13: [replaceById] is a full replace.  On a bound connector, when a
    document is stored under the non-empty string [i] and the caller's record
    carries [i] as its identifier, the call is fulfilled with the document as
    stored afterwards: the next revision, and as fields exactly the caller's
    record as the call leaves it (the record with [_rev], and [docName] if
    the record also served as options object); nothing of the fields stored
    before is kept. *)
Theorem replaceById_full_replace (w : world) (n modelName : string) (i : string)
    (data : loc) (options : option loc) (d : sdoc) :
  bound_db w = Some n →
  lookup_doc (srv w) n (VStr i) = Some d →
  i ≠ EmptyString →
  data < length (heap w) →
  (∀ o, options = Some o → o < length (heap w)) →
  idName (this w) modelName ≠ "_rev" →
  getIdValue (this w) modelName (VObj (deref w data)) = VStr i →
  ∃ w', replaceById modelName (VStr i) data options w
        = (Resolved (VObj (<[ idName (this w) modelName := VStr i ]>
                             (stored_doc i (SDoc (N.succ (sd_rev d))
                                                 (strip (deref w' data)))))), w')
    ∧ stored_fields (srv w') n (VStr i) = Some (strip (deref w' data))
    ∧ deref w' data !! "_rev" = Some (rev_token (sd_rev d))
    ∧ (∀ k, k ≠ "_rev" → k ≠ "docName" → deref w' data !! k = deref w data !! k).
Proof.
  intros Hb Hd Hne Hlen Holen Hidn Hid.
  destruct (attach_frame w) as (Hh & Hs & _ & _ & Hi).
  set (res := VObj (<[ idName (this w) modelName := VStr i ]> (stored_doc i d))).
  assert (Hf : found_doc (idName (this w) modelName) (srv w) n (VStr i) = Some res).
  { unfold found_doc. by rewrite Hd. }
  assert (Hrev : prop res "_rev" = rev_token (sd_rev d)).
  { unfold res. simpl. rewrite lookup_insert_ne by done. by rewrite stored_doc_rev. }
  destruct (replaceById_run _ _ modelName (VStr i) data options res Hb Hf)
    as (h & <- & H3 & Hrun).
  rewrite Hrev in *.
  set (w2 := set_prop data "_rev" (rev_token (sd_rev d))
                      (send (ReqGet (h_db h) (VStr i)) (attach w))) in *.
  set (w3 := save_effect modelName data options w2) in *.
  assert (Hrec2 : deref w2 data = <[ "_rev" := rev_token (sd_rev d) ]> (deref w data)).
  { unfold w2, set_prop. unfold deref at 1. simpl. rewrite Hh.
    rewrite list_lookup_insert_eq by done. simpl. unfold deref. simpl. by rewrite Hh. }
  assert (Hid2 : getIdValue (this w2) modelName (VObj (deref w2 data)) = VStr i).
  { rewrite getIdValue_record, Hrec2. change (this w2) with (this (attach w)).
    rewrite Hi, lookup_insert_ne by done. by rewrite <- getIdValue_record. }
  assert (Hlen2 : length (heap w2) = length (heap w)).
  { unfold w2, set_prop. simpl. by rewrite length_insert, Hh. }
  assert (Hopts : save_options modelName data options w2 !! "docName" = Some (VStr i)).
  { unfold save_options, w3, save_effect. rewrite Hid2. simpl negb. cbv iota.
    destruct options as [o|]; [|apply lookup_singleton_eq].
    unfold deref at 1, set_prop. simpl.
    rewrite list_lookup_insert_eq
      by (change (o < length (heap w2))%nat; rewrite Hlen2; by apply Holen).
    simpl. apply lookup_insert_eq. }
  assert (Hrec3 : deref w3 data !! "_rev" = Some (rev_token (sd_rev d))).
  { apply save_effect_rev; [by rewrite Hlen2|]. rewrite Hrec2. apply lookup_insert_eq. }
  assert (Hkeep : ∀ k, k ≠ "_rev" → k ≠ "docName" → deref w3 data !! k = deref w data !! k).
  { intros k Hk1 Hk2.
    assert (Hk : deref w2 data !! k = deref w data !! k)
      by (by rewrite Hrec2, lookup_insert_ne).
    unfold w3, save_effect. destruct options as [o|]; [|done].
    simpl. destruct (negb _); [|done].
    unfold deref at 1, set_prop. simpl.
    destruct (decide (o = data)) as [->|Hod].
    - rewrite list_lookup_insert_eq
        by (change (data < length (heap w2))%nat; by rewrite Hlen2).
      simpl. by rewrite lookup_insert_ne.
    - by rewrite list_lookup_insert_ne. }
  assert (Hs3 : srv w3 = srv w).
  { unfold w3, save_effect. destruct options; simpl; [destruct (negb _)|]; simpl;
      by rewrite Hs. }
  rewrite (insertAsync_by_docName _ _ _ i) in Hrun by done.
  unfold on_server in Hrun. simpl in Hrun. rewrite Hs3 in Hrun.
  rewrite (put_doc_current _ _ _ _ d) in Hrun by (done || by rewrite Hrec3, rev_matches_token).
  set (body := strip (deref w3 data)) in *.
  set (w4 := set_srv _ _) in Hrun.
  assert (H4 : _connection (this w4) = Some h) by done.
  rewrite (findById_connected _ _ _ _ _ H4) in Hrun.
  assert (Hl4 : lookup_doc (srv w4) (h_db h) (VStr i)
                = Some (SDoc (N.succ (sd_rev d)) body)).
  { unfold w4. simpl. apply (lookup_doc_written _ _ _ _ d). by left. }
  unfold found_doc in Hrun. rewrite Hl4 in Hrun. simpl in Hrun.
  exists (send (ReqGet (h_db h) (VStr i)) w4).
  change (deref (send (ReqGet (h_db h) (VStr i)) w4) data) with (deref w3 data).
  split; [|split; [|split]].
  - rewrite Hrun. change (this w4) with (this w3).
    assert (Hi3 : idName (this w3) = idName (this w)).
    { unfold w3, save_effect. destruct options; simpl; [destruct (negb _)|]; simpl;
        by rewrite Hi. }
    by rewrite Hi3.
  - unfold stored_fields.
    change (srv (send (ReqGet (h_db h) (VStr i)) w4)) with (srv w4).
    by rewrite Hl4.
  - exact Hrec3.
  - exact Hkeep.
Qed.

Lemma put_doc_outcome n i body s docs :
  dbs s !! n = Some docs →
  (put_doc n i body s = (Rejected Conflict, s))
  ∨ (∃ v, (put_doc n i body s).1 = Resolved v).
Proof.
  intros Hn. unfold put_doc. rewrite Hn.
  destruct (docs !! i) as [d|].
  - destruct (rev_matches _ _); [right; by eexists|by left].
  - destruct (body !! "_rev"); [by left|right; by eexists].
Qed.

(** X14: [replaceById] writes under the record's own identifier, not under
    its [id] argument.  On a bound connector, when a document is stored under
    [i] and the caller's record carries another non-empty identifier [j], the
    call changes no document except possibly the one under [j]: the document
    under [i] stays as it was, and the call is either rejected with a
    conflict (nothing changed on the server) or fulfilled with the unchanged
    document under [i]. *)
Theorem replaceById_other_id (w : world) (n modelName : string) (i j : string)
    (data : loc) (options : option loc) (d : sdoc) :
  bound_db w = Some n →
  lookup_doc (srv w) n (VStr i) = Some d →
  j ≠ EmptyString → j ≠ i →
  data < length (heap w) →
  (∀ o, options = Some o → o < length (heap w)) →
  idName (this w) modelName ≠ "_rev" →
  getIdValue (this w) modelName (VObj (deref w data)) = VStr j →
  let r := replaceById modelName (VStr i) data options w in
  (∀ n' i', (n', i') ≠ (n, j) →
     lookup_doc (srv r.2) n' (VStr i') = lookup_doc (srv w) n' (VStr i'))
  ∧ ((r.1 = Rejected Conflict ∧ srv r.2 = srv w)
     ∨ r.1 = Resolved (VObj (<[ idName (this w) modelName := VStr i ]> (stored_doc i d)))).
Proof.
  intros Hb Hd Hne Hji Hlen Holen Hidn Hid r.
  destruct (attach_frame w) as (Hh & Hs & _ & _ & Hi).
  set (res := VObj (<[ idName (this w) modelName := VStr i ]> (stored_doc i d))).
  assert (Hf : found_doc (idName (this w) modelName) (srv w) n (VStr i) = Some res).
  { unfold found_doc. by rewrite Hd. }
  assert (Hrev : prop res "_rev" = rev_token (sd_rev d)).
  { unfold res. simpl. rewrite lookup_insert_ne by done. by rewrite stored_doc_rev. }
  destruct (replaceById_run _ _ modelName (VStr i) data options res Hb Hf)
    as (h & <- & H3 & Hrun).
  rewrite Hrev in *.
  set (w2 := set_prop data "_rev" (rev_token (sd_rev d))
                      (send (ReqGet (h_db h) (VStr i)) (attach w))) in *.
  set (w3 := save_effect modelName data options w2) in *.
  assert (Hrec2 : deref w2 data = <[ "_rev" := rev_token (sd_rev d) ]> (deref w data)).
  { unfold w2, set_prop. unfold deref at 1. simpl. rewrite Hh.
    rewrite list_lookup_insert_eq by done. simpl. unfold deref. simpl. by rewrite Hh. }
  assert (Hid2 : getIdValue (this w2) modelName (VObj (deref w2 data)) = VStr j).
  { rewrite getIdValue_record, Hrec2. change (this w2) with (this (attach w)).
    rewrite Hi, lookup_insert_ne by done. by rewrite <- getIdValue_record. }
  assert (Hlen2 : length (heap w2) = length (heap w)).
  { unfold w2, set_prop. simpl. by rewrite length_insert, Hh. }
  assert (Hopts : save_options modelName data options w2 !! "docName" = Some (VStr j)).
  { unfold save_options, w3, save_effect. rewrite Hid2. simpl negb. cbv iota.
    destruct options as [o|]; [|apply lookup_singleton_eq].
    unfold deref at 1, set_prop. simpl.
    rewrite list_lookup_insert_eq
      by (change (o < length (heap w2))%nat; rewrite Hlen2; by apply Holen).
    simpl. apply lookup_insert_eq. }
  assert (Hs3 : srv w3 = srv w).
  { unfold w3, save_effect. destruct options; simpl; [destruct (negb _)|]; simpl;
      by rewrite Hs. }
  assert (Hi3 : idName (this w3) = idName (this w)).
  { unfold w3, save_effect. destruct options; simpl; [destruct (negb _)|]; simpl;
      by rewrite Hi. }
  rewrite (insertAsync_by_docName _ _ _ j) in Hrun by done.
  unfold on_server in Hrun. simpl in Hrun. rewrite Hs3 in Hrun.
  assert (∃ docs, dbs (srv w) !! h_db h = Some docs) as [docs Hdocs].
  { unfold lookup_doc in Hd. destruct (dbs (srv w) !! h_db h); [by eexists|done]. }
  pose proof (put_doc_lookup_other (h_db h) j (deref w3 data) (srv w)) as Hother.
  destruct (put_doc_outcome (h_db h) j (deref w3 data) (srv w) docs Hdocs) as [Hp|[v Hp]].
  - rewrite Hp in Hrun. unfold r. rewrite Hrun. simpl. split; [done|]. by left.
  - destruct (put_doc _ _ _ _) as [r' s'] eqn:Ep. simpl in Hp. subst r'.
    simpl in Hother.
    set (w4 := set_srv s' _) in Hrun.
    assert (H4 : _connection (this w4) = Some h) by done.
    rewrite (findById_connected _ _ _ _ _ H4) in Hrun.
    assert (Hl4 : lookup_doc (srv w4) (h_db h) (VStr i) = Some d).
    { unfold w4. simpl. rewrite Hother; [done|congruence]. }
    unfold found_doc in Hrun. rewrite Hl4 in Hrun. simpl in Hrun.
    unfold r. rewrite Hrun. simpl. split; [exact Hother|]. right.
    change (this w4) with (this w3). by rewrite Hi3.
Qed.

(** ** The lifecycle hooks on any server *)

Lemma attach_connected_eq w h : _connection (this w) = Some h → attach w = w.
Proof. intros H. unfold attach. by rewrite (connect_connected _ _ H). Qed.

(** The [promise] of [autoupdate], run in the connected world. *)
Lemma update_promise w n h k :
  _connection (this w) = Some h → _db (this w) = Some k →
  named (database (settings (this w))) = Some n →
  ∃ wp, then_ (then_ (settled (Resolved h)) (fun _ => getDB)) (fun res w =>
          if truthy res then resolve res w
          else then_ (db_call (db_createAsync (database (settings (this w)))))
                     (fun _ => getDB) w) w
        = (Resolved (db_info n), wp)
      ∧ srv wp = ensured n (srv w) ∧ this wp = this w ∧ heap wp = heap w.
Proof.
  intros Hconn Hd Hname.
  set (name := database (settings (this w))) in *.
  set (w1 := send (ReqDbGet name) w).
  destruct (dbs (srv w) !! n) as [docs|] eqn:Hdocs.
  - exists w1. split; [|unfold ensured; by rewrite Hdocs].
    assert (H1 : then_ (settled (Resolved h)) (λ _, getDB) w = (Resolved (db_info n), w1)).
    { rewrite then_settled. unfold handler. rewrite (getDB_spec _ _ Hd).
      fold name. by rewrite Hname, Hdocs. }
    by rewrite (then_resolved _ _ _ _ _ H1).
  - set (w2 := set_srv (Server (<[ n := ∅ ]> (dbs (srv w))) (uuids (srv w)))
                       (send (ReqDbCreate name) w1)).
    exists (send (ReqDbGet name) w2). split; [|unfold ensured; by rewrite Hdocs].
    assert (H1 : then_ (settled (Resolved h)) (λ _, getDB) w = (Resolved (VBool false), w1)).
    { rewrite then_settled. unfold handler. rewrite (getDB_spec _ _ Hd).
      fold name. by rewrite Hname, Hdocs. }
    assert (H2 : db_call (db_createAsync name) w1 = (Resolved ok_info, w2)).
    { unfold db_call, db_createAsync. simpl. by rewrite Hd, Hname, Hdocs. }
    assert (H3 : getDB w2 = (Resolved (db_info n), send (ReqDbGet name) w2)).
    { rewrite (getDB_spec w2 _ Hd). change (settings (this w2)) with (settings (this w)).
      fold name. rewrite Hname. simpl. by rewrite lookup_insert_eq. }
    rewrite (then_resolved _ _ _ _ _ H1). unfold handler. simpl truthy. cbv iota.
    change (settings (this w1)) with (settings (this w)). fold name.
    rewrite (then_resolved _ _ _ _ _ H2). unfold handler. by rewrite H3.
Qed.

(** [saveDesignDocs().return(res)] as the last step of a lifecycle hook. *)
Lemma sync_step w n h (res : value) :
  _connection (this w) = Some h → h_db h = n →
  let r := handler (return_ saveDesignDocs res) w in
  srv r.2 = synced n (designDocs (settings (this w))) (srv w)
  ∧ this r.2 = this w
  ∧ (∀ e, r.1 ≠ Thrown e).
Proof.
  intros Hconn Hn r. unfold r.
  split; [|split; [|intros e; apply handler_settles]];
    rewrite handler_snd, return_snd.
  - assert (Hb : bound_db w = Some n) by (unfold bound_db; by rewrite Hconn, Hn).
    destruct (designDocs (settings (this w))) as [dd|] eqn:Edd.
    + by destruct (saveDesignDocs_bound _ _ _ Hb Edd) as (-> & _).
    + destruct (saveDesignDocs_stuck w) as [-> _]; [by right|done].
  - rewrite <- (attach_connected_eq _ _ Hconn) at 2.
    destruct (designDocs (settings (this w))) as [dd|] eqn:Edd.
    + assert (Hb : bound_db w = Some n) by (unfold bound_db; by rewrite Hconn, Hn).
      by destruct (saveDesignDocs_bound _ _ _ Hb Edd) as (_ & -> & _).
    + by destruct (saveDesignDocs_stuck w) as [_ ->]; [by right|].
Qed.

(** [autoupdate] once connected: the database is ensured, then the design
    documents are synchronised. *)
Lemma autoupdate_run models w n h k :
  connect w = (Resolved h, attach w) → h_db h = n →
  _connection (this (attach w)) = Some h → _db (this (attach w)) = Some k →
  named (database (settings (this w))) = Some n →
  let r := autoupdate models w in
  srv r.2 = synced n (designDocs (settings (this w))) (ensured n (srv w))
  ∧ this r.2 = this (attach w)
  ∧ (∀ e, r.1 ≠ Thrown e)
  ∧ (designDocs (settings (this w)) = None → r.1 = Resolved (db_info n)).
Proof.
  intros Hc Hn Hconn Hd Hname r.
  destruct (attach_frame w) as (_ & Hs & _ & Hset & _).
  rewrite <- Hset in Hname.
  destruct (update_promise _ _ _ _ Hconn Hd Hname) as (wp & Hp & Hsp & Htp & _).
  unfold r, autoupdate, let_promise. rewrite Hc. cbv beta zeta.
  unfold has_designDocs. rewrite Hset.
  destruct (designDocs (settings (this w))) as [dd|] eqn:Edd; simpl negb; cbv iota.
  - rewrite (then_resolved _ _ _ _ _ Hp).
    assert (Hconnp : _connection (this wp) = Some h) by by rewrite Htp.
    destruct (sync_step wp n h (db_info n) Hconnp Hn) as (Hs1 & Ht1 & Hthrow).
    rewrite Hs1, Ht1, Htp, Hset, Edd, Hsp, Hs. done.
  - rewrite Hp. cbn [fst snd]. by rewrite Hsp, Hs, Htp.
Qed.

Lemma ensured_exists n s : dbs (ensured n s) !! n ≠ None.
Proof.
  unfold ensured. destruct (dbs s !! n) eqn:E; [by rewrite E|].
  simpl. by rewrite lookup_insert_eq.
Qed.

Lemma ensured_other n s n' : n' ≠ n → dbs (ensured n s) !! n' = dbs s !! n'.
Proof.
  intros Hne. unfold ensured. destruct (dbs s !! n); [done|].
  simpl. by rewrite lookup_insert_ne.
Qed.

Lemma ensured_lookup n s n' id : lookup_doc (ensured n s) n' id = lookup_doc s n' id.
Proof.
  unfold lookup_doc. destruct id; try done.
  destruct (decide (n' = n)) as [->|Hne]; [|by rewrite ensured_other].
  unfold ensured. destruct (dbs s !! n) eqn:E; [by rewrite E|].
  simpl. by rewrite lookup_insert_eq.
Qed.

Lemma ensured_existing n s : dbs s !! n ≠ None → ensured n s = s.
Proof. intros H. unfold ensured. by destruct (dbs s !! n). Qed.

Lemma synced_exists n dd s n' :
  dbs (synced n dd s) !! n' = None ↔ dbs s !! n' = None.
Proof. destruct dd as [dd|]; [apply fold_sync_exists|done]. Qed.

Lemma synced_other n dd s n' id :
  n' ≠ n ∨ (∀ dd' name, dd = Some dd' → is_Some (dd' !! name) → id ≠ VStr (design_id name)) →
  lookup_doc (synced n dd s) n' id = lookup_doc s n' id.
Proof.
  intros H. destruct dd as [dd|]; [|done]. simpl.
  destruct id as [| | | |i| | |]; try done.
  apply fold_sync_other. destruct H as [H|H]; [by left|right].
  intros (name & -> & Hin)%list_elem_of_fmap.
  apply Object_keys_elem in Hin. by apply (H dd name).
Qed.

Lemma synced_design n dd s name :
  is_Some (dd !! name) →
  lookup_doc (synced n (Some dd) s) n (VStr (design_id name))
  = in_db s n (synced_slot (dd !!! name) (design_id name)
                           (lookup_doc s n (VStr (design_id name)))).
Proof.
  intros H. simpl. apply fold_sync_design; [apply Object_keys_NoDup|].
  by apply Object_keys_elem.
Qed.

(** X15: [autoupdate] is not destructive.  On a connector whose [database]
    setting names [n], whatever the server holds: the call does not throw,
    the database [n] exists afterwards, no other database appears or
    disappears, and every document that is not a configured design document
    of [n] is left exactly as it was; without configured design documents the
    call is fulfilled with the database information. *)
Theorem autoupdate_non_destructive (w : world) (n : string) (models : list string) :
  wf_connection w →
  named (database (settings (this w))) = Some n →
  let r := autoupdate models w in
  (∀ e, r.1 ≠ Thrown e)
  ∧ dbs (srv r.2) !! n ≠ None
  ∧ (∀ n', n' ≠ n → dbs (srv r.2) !! n' = None ↔ dbs (srv w) !! n' = None)
  ∧ (∀ n' id,
       n' ≠ n ∨ (∀ dd name, designDocs (settings (this w)) = Some dd →
                            is_Some (dd !! name) → id ≠ VStr (design_id name)) →
       lookup_doc (srv r.2) n' id = lookup_doc (srv w) n' id)
  ∧ (designDocs (settings (this w)) = None → r.1 = Resolved (db_info n)).
Proof.
  intros Hwf Hname r.
  destruct (lifecycle_connect _ _ Hwf (db_name_database _ _ Hname))
    as (h & Hc & Hh & Ha & Hd).
  destruct (autoupdate_run models _ _ _ _ Hc Hh Ha Hd Hname) as (Hs & _ & Hthrow & Hres).
  fold r in Hs, Hthrow, Hres.
  split; [done|]. rewrite Hs.
  split; [|split; [|split; [|done]]].
  - intros Hnone%synced_exists. by apply ensured_exists in Hnone.
  - intros n' Hne. by rewrite synced_exists, ensured_other.
  - intros n' id Hid. by rewrite synced_other, ensured_lookup.
Qed.

(** X16: [autoupdate] is idempotent on the stored data.  After a first run on
    a connector whose [database] setting names a database, a second run
    leaves the fields of every document of every database as the first run
    left them and creates or removes no database; without configured design
    documents it leaves the whole server state unchanged. *)
Theorem autoupdate_idempotent (w : world) (n : string) (models models' : list string) :
  wf_connection w →
  named (database (settings (this w))) = Some n →
  let w1 := (autoupdate models w).2 in
  let w2 := (autoupdate models' w1).2 in
  (∀ n' id, stored_fields (srv w2) n' id = stored_fields (srv w1) n' id)
  ∧ (∀ n', dbs (srv w2) !! n' = None ↔ dbs (srv w1) !! n' = None)
  ∧ (designDocs (settings (this w)) = None → srv w2 = srv w1).
Proof.
  intros Hwf Hname w1 w2.
  destruct (lifecycle_connect _ _ Hwf (db_name_database _ _ Hname))
    as (h & Hc & Hh & Ha & Hd).
  destruct (attach_frame w) as (_ & _ & _ & Hset & _).
  destruct (autoupdate_run models _ _ _ _ Hc Hh Ha Hd Hname) as (Hs1 & Ht1 & _).
  fold w1 in Hs1, Ht1.
  assert (Hconn1 : _connection (this w1) = Some h) by by rewrite Ht1.
  assert (Hat1 : attach w1 = w1) by by apply (attach_connected_eq _ h).
  assert (Hset1 : settings (this w1) = settings (this w)) by by rewrite Ht1.
  assert (Hc1 : connect w1 = (Resolved h, attach w1)).
  { rewrite Hat1. by apply connect_connected. }
  assert (Hd1 : _db (this (attach w1)) = Some (h_nano h)) by by rewrite Hat1, Ht1.
  assert (Hname1 : named (database (settings (this w1))) = Some n) by by rewrite Hset1.
  rewrite <- Hat1 in Hconn1.
  destruct (autoupdate_run models' _ _ _ _ Hc1 Hh Hconn1 Hd1 Hname1) as (Hs2 & _).
  fold w2 in Hs2. rewrite Hset1 in Hs2.
  assert (Hex : dbs (srv w1) !! n ≠ None).
  { rewrite Hs1. intros Hnone%synced_exists. by apply ensured_exists in Hnone. }
  rewrite (ensured_existing _ _ Hex) in Hs2.
  split; [|split].
  - intros n' id. rewrite Hs2, Hs1.
    destruct (designDocs (settings (this w))) as [dd|]; [|done].
    apply fold_sync_idemp, Object_keys_NoDup.
  - intros n'. by rewrite Hs2, synced_exists.
  - intros Hdd. by rewrite Hs2, Hdd.
Qed.

Lemma migrate_steps_missing w n :
  wf_connection w →
  named (database (settings (this w))) = Some n →
  dbs (srv w) !! n = None →
  ∃ wp, migrate_steps w = (Resolved (db_info n), wp)
        ∧ srv wp = emptied n (srv w) ∧ this wp = this (attach w).
Proof.
  intros Hwf Hname Hdocs.
  destruct (lifecycle_connect _ _ Hwf (db_name_database _ _ Hname))
    as (h & Hc & Hh & Ha & Hd).
  destruct (attach_frame w) as (_ & Hs & Hl & Hset & _).
  set (name := database (settings (this w))) in *.
  set (w1 := send (ReqDbGet name) (attach w)).
  assert (H1 : then_ connect (λ _, getDB) w = (Resolved (VBool false), w1)).
  { rewrite (then_connect _ _ _ Hc). unfold handler.
    rewrite (getDB_spec _ _ Hd), Hset. fold name. by rewrite Hname, Hs, Hdocs. }
  set (w3 := set_srv (Server (<[ n := ∅ ]> (dbs (srv w))) (uuids (srv w)))
                     (send (ReqDbCreate name) w1)).
  assert (H3 : db_call (db_createAsync name) w1 = (Resolved ok_info, w3)).
  { unfold db_call, db_createAsync. simpl. by rewrite Hd, Hname, Hs, Hdocs. }
  assert (H4 : getDB w3 = (Resolved (db_info n), send (ReqDbGet name) w3)).
  { rewrite (getDB_spec w3 _ Hd).
    change (settings (this w3)) with (settings (this (attach w))).
    rewrite Hset. fold name. rewrite Hname. simpl.
    by rewrite lookup_insert_eq. }
  exists (send (ReqDbGet name) w3). split; [|done].
  unfold migrate_steps.
  rewrite (then_resolved _ _ w VUndef w1).
  - unfold handler.
    change (settings (this w1)) with (settings (this (attach w))).
    rewrite Hset. fold name.
    rewrite (then_resolved _ _ _ _ _ H3). unfold handler. by rewrite H4.
  - by rewrite (then_resolved _ _ _ _ _ H1).
Qed.

(** The [promise] of [automigrate] on any server. *)
Lemma migrate_steps_any w n :
  wf_connection w →
  named (database (settings (this w))) = Some n →
  ∃ wp, migrate_steps w = (Resolved (db_info n), wp)
        ∧ srv wp = emptied n (srv w) ∧ this wp = this (attach w).
Proof.
  intros Hwf Hname. destruct (dbs (srv w) !! n) as [docs|] eqn:Hdocs.
  - exists (migrated n w). split; [by eapply migrate_steps_existing|].
    split; [|done]. unfold migrated, emptied. simpl.
    by rewrite insert_delete_eq.
  - by apply migrate_steps_missing.
Qed.

Lemma automigrate_run models w n :
  wf_connection w →
  named (database (settings (this w))) = Some n →
  let r := automigrate models w in
  srv r.2 = synced n (designDocs (settings (this w))) (emptied n (srv w))
  ∧ this r.2 = this (attach w)
  ∧ (∀ e, r.1 ≠ Thrown e)
  ∧ (designDocs (settings (this w)) = None → r.1 = Resolved (db_info n)).
Proof.
  intros Hwf Hname r.
  destruct (lifecycle_connect _ _ Hwf (db_name_database _ _ Hname))
    as (h & Hc & Hh & Ha & Hd).
  destruct (attach_frame w) as (_ & _ & _ & Hset & _).
  destruct (migrate_steps_any _ _ Hwf Hname) as (wp & Hp & Hsp & Htp).
  unfold r. rewrite automigrate_steps. unfold has_designDocs.
  destruct (designDocs (settings (this w))) as [dd|] eqn:Edd; simpl negb; cbv iota.
  - rewrite (then_resolved _ _ _ _ _ Hp).
    assert (Hconnp : _connection (this wp) = Some h) by by rewrite Htp.
    destruct (sync_step wp n h (db_info n) Hconnp Hh) as (Hs1 & Ht1 & Hthrow).
    rewrite Hs1, Ht1, Htp, Hset, Edd, Hsp. done.
  - rewrite Hp. cbn [fst snd]. by rewrite Hsp, Htp.
Qed.

Lemma emptied_lookup n s id : lookup_doc (emptied n s) n id = None.
Proof.
  unfold lookup_doc, emptied. destruct id; try done.
  simpl. by rewrite lookup_insert_eq.
Qed.

Lemma emptied_other n s n' : n' ≠ n → dbs (emptied n s) !! n' = dbs s !! n'.
Proof. intros Hne. unfold emptied. simpl. by rewrite lookup_insert_ne. Qed.

(** X17: [automigrate] rebuilds the database from the configuration alone.
    On a connector whose [database] setting names [n], whether or not [n]
    existed and whatever it held: the call does not throw, [n] exists
    afterwards, every configured design document whose definition carries no
    [_rev] is stored at its first revision with exactly the definition's
    fields, no other id of [n] has a document, and the other databases keep
    their documents and their existence. *)
Theorem automigrate_rebuilds (w : world) (n : string) (models : list string) :
  wf_connection w →
  named (database (settings (this w))) = Some n →
  let r := automigrate models w in
  (∀ e, r.1 ≠ Thrown e)
  ∧ dbs (srv r.2) !! n ≠ None
  ∧ (∀ dd name def, designDocs (settings (this w)) = Some dd →
       dd !! name = Some def → def !! "_rev" = None →
       lookup_doc (srv r.2) n (VStr (design_id name)) = Some (SDoc 1 (strip def)))
  ∧ (∀ id, (∀ dd name, designDocs (settings (this w)) = Some dd →
                       is_Some (dd !! name) → id ≠ VStr (design_id name)) →
       lookup_doc (srv r.2) n id = None)
  ∧ (∀ n' id, n' ≠ n →
       lookup_doc (srv r.2) n' id = lookup_doc (srv w) n' id
       ∧ (dbs (srv r.2) !! n' = None ↔ dbs (srv w) !! n' = None)).
Proof.
  intros Hwf Hname r.
  destruct (automigrate_run models _ _ Hwf Hname) as (Hs & _ & Hthrow & _).
  fold r in Hs, Hthrow.
  split; [done|]. rewrite Hs.
  split; [|split; [|split]].
  - intros Hnone%synced_exists. unfold emptied in Hnone. simpl in Hnone.
    by rewrite lookup_insert_eq in Hnone.
  - intros dd name def Hdd Hdef Hrev. rewrite Hdd.
    rewrite synced_design by by rewrite Hdef.
    rewrite emptied_lookup. unfold in_db, emptied. simpl.
    rewrite lookup_insert_eq. unfold synced_slot, merged_body, put_slot.
    rewrite (lookup_total_correct _ _ _ Hdef). by rewrite Hrev.
  - intros id Hid. rewrite synced_other by by right. apply emptied_lookup.
  - intros n' id Hne. split.
    + rewrite synced_other by by left.
      unfold lookup_doc. destruct id; try done. by rewrite emptied_other.
    + by rewrite synced_exists, emptied_other.
Qed.

(** ** What [saveDesignDocs] answers *)






(** ** Reading, and reconnecting *)

(** X19: what [findById] answers.  On a bound connector the call only reads:
    it sends one get and leaves the server and the caller's objects as they
    were.  When the database has a document under the id, the call is
    fulfilled with an object whose identifier, as the framework reads it, is
    the id asked for (even when the stored fields hold something else under
    the identifier field) and whose other fields are the stored ones with
    [_id] and [_rev]; when it has none, the call is rejected with
    [NotFound]. *)
Theorem findById_answers (w : world) (n modelName : string) (id : value)
    (options : option loc) :
  bound_db w = Some n →
  let r := findById modelName id options w in
  srv r.2 = srv w ∧ heap r.2 = heap w ∧ log r.2 = (log w ++ [ReqGet n id])%list
  ∧ match lookup_doc (srv w) n id with
    | Some d =>
        ∃ i doc, id = VStr i ∧ r.1 = Resolved (VObj doc)
          ∧ getIdValue (this w) modelName (VObj doc) = id
          ∧ (∀ k, k ≠ idName (this w) modelName → doc !! k = stored_doc i d !! k)
    | None => r.1 = Rejected NotFound
    end.
Proof.
  intros Hb r. unfold r. rewrite (findById_bound _ _ _ _ _ Hb).
  destruct (attach_frame w) as (Hh & Hs & Hl & _).
  cbn [fst snd]. split; [done|]. split; [done|]. split; [simpl; by rewrite Hl|].
  destruct (lookup_doc (srv w) n id) as [d|] eqn:Hd.
  - destruct id as [| | | |i| | |]; try done.
    exists i, (<[ idName (this w) modelName := VStr i ]> (stored_doc i d)).
    split; [done|]. unfold found_doc. rewrite Hd. split; [done|]. split.
    + unfold getIdValue. simpl. by rewrite lookup_insert_eq.
    + intros k Hk. by rewrite lookup_insert_ne.
  - by rewrite (found_doc_None _ _ _ _ Hd).
Qed.

Lemma disconnect_bound w : wf_connection w → bound_db (disconnect w).2 = bound_db w.
Proof.
  unfold wf_connection, bound_db, disconnect.
  destruct (_connection (this w)) as [h|] eqn:E; simpl; [|by rewrite E].
  by intros (_ & <- & _).
Qed.

Lemma disconnect_frame w :
  srv (disconnect w).2 = srv w ∧ heap (disconnect w).2 = heap w
  ∧ idName (this (disconnect w).2) = idName (this w)
  ∧ settings (this (disconnect w).2) = settings (this w).
Proof. unfold disconnect. by destruct (_connection (this w)). Qed.

(** X20: disconnecting loses nothing.  On a consistent connection slot, the
    hooks called after [disconnect] reconnect on their own and answer as they
    would have without it: [findById] and [destroyById] end the same way and
    leave the same server state, whether or not [disconnect] ran before. *)
Theorem disconnect_transparent (w : world) (modelName : string) (id : value)
    (options : option loc) :
  wf_connection w →
  let w' := (disconnect w).2 in
  bound_db w' = bound_db w
  ∧ (findById modelName id options w').1 = (findById modelName id options w).1
  ∧ srv (findById modelName id options w').2 = srv (findById modelName id options w).2
  ∧ (destroyById modelName id options w').1 = (destroyById modelName id options w).1
  ∧ srv (destroyById modelName id options w').2
    = srv (destroyById modelName id options w).2.
Proof.
  intros Hwf w'.
  pose proof (disconnect_bound _ Hwf) as Hb. fold w' in Hb.
  destruct (disconnect_frame w) as (Hs & _ & Hi & _). fold w' in Hs, Hi.
  split; [done|].
  destruct (bound_db w) as [n|] eqn:Eb.
  - rewrite !(findById_bound _ n), !(destroyById_bound _ n) by done.
    destruct (attach_frame w) as (_ & Hsa & _). destruct (attach_frame w') as (_ & Hsa' & _).
    cbn [fst snd]. rewrite Hi, Hs. split; [done|].
    split; [simpl; by rewrite Hsa, Hsa', Hs|].
    unfold destroyed. rewrite Hs.
    destruct id as [| | | |i| | |]; try (simpl; by rewrite Hsa, Hsa', Hs).
    destruct (lookup_doc (srv w) n (VStr i)); simpl; [done|by rewrite Hsa, Hsa', Hs].
  - unfold bound_db in Eb. destruct (_connection (this w)) eqn:Ec; [done|].
    unfold w', disconnect. by rewrite Ec.
Qed.


(** ** The properties on the concrete worlds *)

Lemma generateCouchDBURL_witness :
  (generateCouchDBURL hostname_options).1 = "http://db.local:6984"
  ∧ hostname (generateCouchDBURL hostname_options).2 = Some "db.local"
  ∧ generateCouchDBURL (generateCouchDBURL hostname_options).2
    = generateCouchDBURL hostname_options.
Proof.
  destruct (generateCouchDBURL_idempotent hostname_options) as (Hidem & _ & _ & _ & Hh).
  split; [reflexivity|]. split; [exact (Hh "db.local" eq_refl)|exact Hidem].
Defined.

Lemma CouchDB_url_witness :
  CouchDB_url url_options = url_options
  ∧ url (CouchDB_url host_options) = Some "http://couch.local:5984"
  ∧ hostname (CouchDB_url host_options) = Some "couch.local".
Proof.
  destruct (CouchDB_url_settled url_options) as (_ & _ & Hkept & _).
  destruct (CouchDB_url_settled host_options) as (_ & _ & _ & Hgen).
  destruct (Hgen eq_refl) as (Hu & Hh & _).
  split; [exact (Hkept (ex_intro _ _ eq_refl))|]. split; [exact Hu|exact Hh].
Defined.

Lemma urlResolveFix_witness :
  urlResolveFix String.append "http://couch.local:5984/" "mydb"
  = urlResolveFix String.append "http://couch.local:5984" "mydb".
Proof.
  destruct (urlResolveFix_trailing_slash String.append "http://couch.local:5984" "mydb")
    as (_ & Hslash & _).
  exact (Hslash eq_refl).
Defined.

Lemma initialize_connects_witness :
  (∃ h, initialize (MkSettings None (Some "mydb") None) (λ _, "id") [] example_server
        = (Resolved h, attach (init_world (MkSettings None (Some "mydb") None) (λ _, "id") [] example_server))
        ∧ h_db h = "mydb")
  ∧ initialize (MkSettings None None None) (λ _, "id") [] example_server
    = (Thrown ConfigurationError, unconfigured_world).
Proof.
  destruct (initialize_connects (MkSettings None (Some "mydb") None) (λ _, "id") []
              example_server) as (Hok & _).
  destruct (initialize_connects (MkSettings None None None) (λ _, "id") []
              example_server) as (_ & Hthrow & _).
  destruct (Hok "mydb" eq_refl) as (h & Hrun & Hh & _).
  split; [exists h; split; [exact Hrun|exact Hh]|exact (Hthrow eq_refl)].
Defined.

Lemma unconfigured_hooks_throw_witness :
  bound_db unnamed_world = None
  ∧ findById "Model" (VStr "a") None unnamed_world
    = (Thrown ConfigurationError, unnamed_world)
  ∧ create "Model" 0 (Some 1) unnamed_world = (Thrown ConfigurationError, unnamed_world)
  ∧ autoupdate [] unnamed_world = (Thrown ConfigurationError, unnamed_world).
Proof.
  split; [reflexivity|].
  destruct (unconfigured_hooks_throw unnamed_world "Model" (VStr "a") 0 (Some 1) [] eq_refl)
    as (Hfind & _ & _ & Hcreate & _ & _ & Hupdate & _).
  split; [exact Hfind|]. split; [exact Hcreate|exact Hupdate].
Defined.

Lemma unconfigured_bulk_rejects_witness :
  bound_db unconfigured_world = None
  ∧ all "Model" example_query None unconfigured_world
    = (Rejected ConfigurationError, unconfigured_world)
  ∧ destroyAll "Model" (VObj example_where) None unconfigured_world
    = (Rejected ConfigurationError, unconfigured_world).
Proof.
  split; [reflexivity|].
  destruct (unconfigured_bulk_rejects unconfigured_world "Model" example_query
              (VObj example_where) None eq_refl) as (Hall & Hdestroy).
  split; [apply Hall; [reflexivity|discriminate]|apply Hdestroy; discriminate].
Defined.

Lemma unconfigured_save_witness :
  bound_db unnamed_world = None
  ∧ (save "Model" 0 (Some 1) unnamed_world).1 = Thrown ConfigurationError
  ∧ heap (save "Model" 0 (Some 1) unnamed_world).2
    = [ {[ "id" := VStr "a"; "name" := VStr "new" ]}; {[ "docName" := VStr "a" ]} ].
Proof.
  split; [reflexivity|].
  destruct (unconfigured_save_throws_after_mutation unnamed_world "Model" 0 (Some 1) eq_refl)
    as (Hrun & Hheap).
  split; [by rewrite Hrun|]. exact (Hheap 1 eq_refl eq_refl).
Defined.


Lemma destroyAll_counts_witness :
  bound_db example_world = Some "mydb"
  ∧ ∃ w', destroyAll "Model" (VObj example_where) None example_world
          = (Resolved (count_info 2), w')
    ∧ lookup_doc (srv w') "mydb" (VStr "a") = None
    ∧ lookup_doc (srv w') "mydb" (VStr "b") = None
    ∧ heap w' = heap example_world.
Proof.
  split; [reflexivity|].
  assert (Hnd : NoDup [VStr "a"; VStr "missing"; VStr "b"]).
  { apply NoDup_cons. split.
    { rewrite !elem_of_cons, elem_of_nil. intros [H|[H|[]]]; discriminate H. }
    apply NoDup_cons. split.
    { rewrite !elem_of_cons, elem_of_nil. intros [H|[]]; discriminate H. }
    apply NoDup_singleton. }
  destruct (destroyAll_counts_existing example_world "mydb" "Model" (VObj example_where) None
              [VStr "a"; VStr "missing"; VStr "b"] eq_refl eq_refl Hnd)
    as (w' & Hrun & Hgone & _ & Hheap).
  exists w'. split; [exact Hrun|].
  split; [apply Hgone; rewrite !elem_of_cons; by left|].
  split; [apply Hgone; rewrite !elem_of_cons; by right; right; left|exact Hheap].
Defined.

Lemma destroyAll_then_all_witness :
  bound_db example_world = Some "mydb"
  ∧ ∃ w2, all "Model" (VObj {[ "where" := VObj example_where ]}) None
              (destroyAll "Model" (VObj example_where) None example_world).2
          = (Resolved [], w2).
Proof.
  split; [reflexivity|].
  exact (destroyAll_then_all_empty example_world "mydb" "Model" (VObj example_where)
           None None eq_refl).
Defined.

Lemma create_then_findById_witness :
  bound_db fresh_world = Some "mydb"
  ∧ example_docs !! "c" = None
  ∧ ∃ w1 w2,
      create "Model" 0 None fresh_world = (Resolved (VStr "c", VStr "1"), w1)
      ∧ findById "Model" (VStr "c") None w1
        = (Resolved (VObj {[ "_id" := VStr "c"; "_rev" := VStr "1"; "id" := VStr "c";
                             "name" := VStr "C" ]}), w2)
      ∧ heap w2 = heap fresh_world.
Proof.
  split; [reflexivity|]. split; [reflexivity|].
  assert (Hne : "c" ≠ EmptyString) by discriminate.
  destruct (create_then_findById fresh_world "mydb" "Model" 0 None None "c" example_docs
              eq_refl eq_refl eq_refl Hne eq_refl eq_refl eq_refl)
    as (w1 & w2 & Hcreate & Hfind & Hheap).
  exists w1, w2. split; [exact Hcreate|]. split; [|exact Hheap].
  rewrite Hfind. reflexivity.
Defined.

Lemma no_overwrite_witness :
  bound_db example_world = Some "mydb"
  ∧ lookup_doc (srv example_world) "mydb" (VStr "a") = Some (SDoc 1 {[ "name" := VStr "A" ]})
  ∧ (create "Model" 0 None example_world).1 = Rejected Conflict
  ∧ (save "Model" 0 None example_world).1 = Rejected Conflict
  ∧ srv (save "Model" 0 None example_world).2 = example_server.
Proof.
  split; [reflexivity|]. split; [reflexivity|].
  assert (Hne : "a" ≠ EmptyString) by discriminate.
  destruct (no_overwrite_without_rev example_world "mydb" "Model" 0 "a"
              (SDoc 1 {[ "name" := VStr "A" ]}) eq_refl eq_refl Hne eq_refl eq_refl)
    as (Hcreate & _ & Hsave & Hsrv).
  split; [exact Hcreate|]. split; [exact Hsave|exact Hsrv].
Defined.

Lemma replaceById_full_replace_witness :
  bound_db example_world = Some "mydb"
  ∧ lookup_doc (srv example_world) "mydb" (VStr "a") = Some (SDoc 1 {[ "name" := VStr "A" ]})
  ∧ ∃ w', replaceById "Model" (VStr "a") 0 None example_world
          = (Resolved (VObj (<[ "id" := VStr "a" ]>
                               (stored_doc "a" (SDoc 2 (strip (deref w' 0)))))), w')
    ∧ stored_fields (srv w') "mydb" (VStr "a") = Some (strip (deref w' 0))
    ∧ deref w' 0 !! "_rev" = Some (VStr "1")
    ∧ deref w' 0 !! "name" = Some (VStr "new").
Proof.
  split; [reflexivity|]. split; [reflexivity|].
  assert (Hne : "a" ≠ EmptyString) by discriminate.
  assert (Hlen : (0 < length (heap example_world))%nat) by (simpl; lia).
  assert (Holen : ∀ o, @None nat = Some o → (o < length (heap example_world))%nat)
    by discriminate.
  assert (Hidn : idName (this example_world) "Model" ≠ "_rev") by discriminate.
  destruct (replaceById_full_replace example_world "mydb" "Model" "a" 0 None
              (SDoc 1 {[ "name" := VStr "A" ]}) eq_refl eq_refl Hne Hlen Holen Hidn eq_refl)
    as (w' & Hrun & Hfields & Hrev & Hkeep).
  exists w'. split; [exact Hrun|]. split; [exact Hfields|]. split; [exact Hrev|].
  rewrite Hkeep; [reflexivity|discriminate|discriminate].
Defined.

Lemma replaceById_other_id_witness :
  bound_db example_world = Some "mydb"
  ∧ getIdValue (this example_world) "Model" (VObj (deref example_world 0)) = VStr "a"
  ∧ lookup_doc (srv (replaceById "Model" (VStr "b") 0 None example_world).2) "mydb" (VStr "b")
    = Some (SDoc 2 {[ "name" := VStr "B" ]})
  ∧ ((replaceById "Model" (VStr "b") 0 None example_world).1 = Rejected Conflict
     ∨ (replaceById "Model" (VStr "b") 0 None example_world).1
       = Resolved (VObj (<[ "id" := VStr "b" ]>
                           (stored_doc "b" (SDoc 2 {[ "name" := VStr "B" ]}))))).
Proof.
  split; [reflexivity|]. split; [reflexivity|].
  assert (Hne : "a" ≠ EmptyString) by discriminate.
  assert (Hab : "a" ≠ "b") by discriminate.
  assert (Hlen : (0 < length (heap example_world))%nat) by (simpl; lia).
  assert (Holen : ∀ o, @None nat = Some o → (o < length (heap example_world))%nat)
    by discriminate.
  assert (Hidn : idName (this example_world) "Model" ≠ "_rev") by discriminate.
  destruct (replaceById_other_id example_world "mydb" "Model" "b" "a" 0 None
              (SDoc 2 {[ "name" := VStr "B" ]}) eq_refl eq_refl Hne Hab Hlen Holen Hidn
              eq_refl) as (Hother & Hres).
  split.
  - rewrite Hother; [reflexivity|]. intros Heq. discriminate Heq.
  - destruct Hres as [[Hrej _]|Hok]; [left; exact Hrej|right; exact Hok].
Defined.

Lemma autoupdate_non_destructive_witness :
  wf_connection bare_world
  ∧ dbs (srv bare_world) !! "mydb" = None
  ∧ dbs (srv (autoupdate [] bare_world).2) !! "mydb" ≠ None
  ∧ lookup_doc (srv (autoupdate [] design_world).2) "mydb" (VStr "a")
    = Some (SDoc 1 {[ "name" := VStr "A" ]}).
Proof.
  split; [apply wf_connection_init|]. split; [reflexivity|].
  destruct (autoupdate_non_destructive bare_world "mydb" [] (wf_connection_init _ _ _ _)
              eq_refl) as (_ & Hex & _).
  destruct (autoupdate_non_destructive design_world "mydb" [] (wf_connection_init _ _ _ _)
              eq_refl) as (_ & _ & _ & Hkeep & _).
  split; [exact Hex|].
  rewrite Hkeep; [reflexivity|]. right.
  intros dd name _ _ Heq. cbv in Heq. discriminate Heq.
Defined.

Lemma autoupdate_idempotent_witness :
  wf_connection design_world
  ∧ stored_fields (srv (autoupdate [] (autoupdate [] design_world).2).2) "mydb"
      (VStr (design_id "foo"))
    = stored_fields (srv (autoupdate [] design_world).2) "mydb" (VStr (design_id "foo")).
Proof.
  split; [apply wf_connection_init|].
  destruct (autoupdate_idempotent design_world "mydb" [] [] (wf_connection_init _ _ _ _)
              eq_refl) as (Hfields & _).
  apply Hfields.
Defined.

Lemma automigrate_rebuilds_witness :
  wf_connection design_world
  ∧ lookup_doc (srv design_world) "mydb" (VStr (design_id "foo"))
    = Some (SDoc 3 {[ "views" := VObj ∅; "language" := VStr "javascript" ]})
  ∧ lookup_doc (srv (automigrate [] design_world).2) "mydb" (VStr (design_id "foo"))
    = Some (SDoc 1 foo_definition)
  ∧ lookup_doc (srv (automigrate [] design_world).2) "mydb" (VStr "a") = None
  ∧ dbs (srv (automigrate [] bare_world).2) !! "mydb" ≠ None.
Proof.
  split; [apply wf_connection_init|]. split; [reflexivity|].
  destruct (automigrate_rebuilds design_world "mydb" [] (wf_connection_init _ _ _ _)
              eq_refl) as (_ & _ & Hdesign & Hgone & _).
  destruct (automigrate_rebuilds bare_world "mydb" [] (wf_connection_init _ _ _ _)
              eq_refl) as (_ & Hex & _).
  split; [exact (Hdesign _ "foo" foo_definition eq_refl eq_refl eq_refl)|].
  split; [|exact Hex].
  apply Hgone. intros dd name _ _ Heq. cbv in Heq. discriminate Heq.
Defined.


Lemma findById_answers_witness :
  bound_db example_world = Some "mydb"
  ∧ log (findById "Model" (VStr "a") None example_world).2 = [ReqGet "mydb" (VStr "a")]
  ∧ srv (findById "Model" (VStr "a") None example_world).2 = example_server
  ∧ (findById "Model" (VStr "missing") None example_world).1 = Rejected NotFound.
Proof.
  split; [reflexivity|].
  destruct (findById_answers example_world "mydb" "Model" (VStr "a") None eq_refl)
    as (Hsrv & _ & Hlog & _).
  destruct (findById_answers example_world "mydb" "Model" (VStr "missing") None eq_refl)
    as (_ & _ & _ & Hmissing).
  split; [exact Hlog|]. split; [exact Hsrv|exact Hmissing].
Defined.

Lemma disconnect_transparent_witness :
  wf_connection (attach example_world)
  ∧ _connection (this (disconnect (attach example_world)).2) = None
  ∧ (findById "Model" (VStr "a") None (disconnect (attach example_world)).2).1
    = (findById "Model" (VStr "a") None (attach example_world)).1
  ∧ srv (destroyById "Model" (VStr "a") None (disconnect (attach example_world)).2).2
    = srv (destroyById "Model" (VStr "a") None (attach example_world)).2.
Proof.
  assert (Hwf : wf_connection (attach example_world))
    by apply wf_connection_attach, wf_connection_init.
  split; [exact Hwf|]. split; [reflexivity|].
  destruct (disconnect_transparent (attach example_world) "Model" (VStr "a") None Hwf)
    as (_ & Hfind & _ & _ & Hdestroy).
  split; [exact Hfind|exact Hdestroy].
Defined.
